(** * PresenceWidget: a GTK widget mirroring one Telepathy account

    Shallow embedding of [docs/examples/gtk_presence_app/presence-widget.c].

    The C file is event-driven glue: signal handlers that copy fields of a
    [TpAccount] into three GTK widgets, one handler that forwards a toggle
    of the check button back to the account, and an asynchronous fetch of
    the connection's [Statuses] property.  The embedding keeps that shape:

    - objects live in a [World] of typed stores indexed by address
      (widget instances, toggle buttons, images, labels, accounts,
      connections, reference counts);
    - every C function is a computation in a state-and-failure monad [M]
      over the [World]; failure stands for behaviour the C program does
      not define (dereferencing [NULL] or an address that holds no object
      of the expected kind, indexing outside an array, breaking a library
      precondition);
    - calls that leave the component (asynchronous requests, log messages,
      toolkit calls whose effect is outside the modelled stores) are
      appended to the [calls] log with their arguments;
    - signal connections are data, and emitting a signal runs the
      connected handlers. *)

From Stdlib Require Import ZArith NArith Lia.
From stdpp Require Import base option list strings gmap.

Local Open Scope string_scope.

(** ** Addresses and C scalars *)

(** A non-[NULL] address.  A C pointer that may be [NULL] is an
    [option ptr]. *)
Definition ptr : Type := positive.

(** [gint] is a 32-bit signed integer; [wrap_gint] is the value a
    two's-complement machine stores after an arithmetic operation. *)
Definition wrap_gint (z : Z) : Z := ((z + 2 ^ 31) mod 2 ^ 32 - 2 ^ 31)%Z.

(** ** telepathy-glib declarations used by the file *)

(** Modelled from the spec: [TpConnectionPresenceType] is declared by
    telepathy-glib, not by this file; the specification lists its nine
    values (Unset, Offline, Available, Away, ExtendedAway, Hidden, Busy,
    Unknown, Error) in this order. *)
Inductive TpConnectionPresenceType : Type :=
  | TP_CONNECTION_PRESENCE_TYPE_UNSET
  | TP_CONNECTION_PRESENCE_TYPE_OFFLINE
  | TP_CONNECTION_PRESENCE_TYPE_AVAILABLE
  | TP_CONNECTION_PRESENCE_TYPE_AWAY
  | TP_CONNECTION_PRESENCE_TYPE_EXTENDED_AWAY
  | TP_CONNECTION_PRESENCE_TYPE_HIDDEN
  | TP_CONNECTION_PRESENCE_TYPE_BUSY
  | TP_CONNECTION_PRESENCE_TYPE_UNKNOWN
  | TP_CONNECTION_PRESENCE_TYPE_ERROR.

(** The integer value of an enumerator, which is what the C code uses as
    an array index. *)
Definition presence_index (p : TpConnectionPresenceType) : nat :=
  match p with
  | TP_CONNECTION_PRESENCE_TYPE_UNSET => 0
  | TP_CONNECTION_PRESENCE_TYPE_OFFLINE => 1
  | TP_CONNECTION_PRESENCE_TYPE_AVAILABLE => 2
  | TP_CONNECTION_PRESENCE_TYPE_AWAY => 3
  | TP_CONNECTION_PRESENCE_TYPE_EXTENDED_AWAY => 4
  | TP_CONNECTION_PRESENCE_TYPE_HIDDEN => 5
  | TP_CONNECTION_PRESENCE_TYPE_BUSY => 6
  | TP_CONNECTION_PRESENCE_TYPE_UNKNOWN => 7
  | TP_CONNECTION_PRESENCE_TYPE_ERROR => 8
  end.

(** Modelled from the spec: the number of presence types, one more than
    the last enumerator. *)
Definition NUM_TP_CONNECTION_PRESENCE_TYPES : nat := 9.

Definition all_presence_types : list TpConnectionPresenceType :=
  [ TP_CONNECTION_PRESENCE_TYPE_UNSET; TP_CONNECTION_PRESENCE_TYPE_OFFLINE;
    TP_CONNECTION_PRESENCE_TYPE_AVAILABLE; TP_CONNECTION_PRESENCE_TYPE_AWAY;
    TP_CONNECTION_PRESENCE_TYPE_EXTENDED_AWAY;
    TP_CONNECTION_PRESENCE_TYPE_HIDDEN; TP_CONNECTION_PRESENCE_TYPE_BUSY;
    TP_CONNECTION_PRESENCE_TYPE_UNKNOWN; TP_CONNECTION_PRESENCE_TYPE_ERROR ].

(** Modelled from the spec: [TpConnectionStatus] is declared by
    telepathy-glib; its values (Connected, Connecting, Disconnected) reach
    the handlers as [guint], numbered as in the Telepathy D-Bus
    interface. *)
Definition TP_CONNECTION_STATUS_CONNECTED : N := 0.
Definition TP_CONNECTION_STATUS_CONNECTING : N := 1.
Definition TP_CONNECTION_STATUS_DISCONNECTED : N := 2.

Definition TP_IFACE_CONNECTION_INTERFACE_SIMPLE_PRESENCE : string :=
  "org.freedesktop.Telepathy.Connection.Interface.SimplePresence".

(** The observable state of a [TpAccount], read through its accessors. *)
Record TpAccount : Type := mkTpAccount {
  acc_enabled : bool;
  acc_display_name : string;
  acc_presence : TpConnectionPresenceType;
  acc_status_message : string;
  acc_connection : option ptr;
  acc_connection_status : N
}.

(** ** GLib values *)

Record GError : Type := mkGError { message : string }.

Inductive GType : Type :=
  | TP_HASH_TYPE_SIMPLE_STATUS_SPEC_MAP
  | TP_TYPE_ACCOUNT
  | G_TYPE_STRING
  | G_TYPE_BOOLEAN.

Global Instance GType_eq_dec : EqDecision GType.
Proof. solve_decision. Defined.

(** A [GValue] holding a boxed or object pointer: its type tag and the
    pointer stored in it. *)
Record GValue : Type := mkGValue {
  g_value_type : GType;
  g_value_pointer : option ptr
}.

(** [G_VALUE_HOLDS (value, type)]; a [NULL] value holds nothing. *)
Definition G_VALUE_HOLDS (value : option GValue) (t : GType) : bool :=
  match value with
  | Some v => bool_decide (g_value_type v = t)
  | None => false
  end.

(** ** Static tables *)

(** A C array of [n] string pointers with an initialiser list: missing
    trailing initialisers are [NULL], and the array has exactly [n]
    elements. *)
Definition c_string_array (n : nat) (init : list string) : list (option string) :=
  take n ((Some <$> init) ++ replicate n None).

(* presence icons *)
Definition presence_icons : list (option string) :=
  c_string_array NUM_TP_CONNECTION_PRESENCE_TYPES
    [ "empathy-offline";
      "empathy-offline";
      "empathy-available";
      "empathy-away";
      "empathy-extended-away";
      "empathy-offline";
      "empathy-busy";
      "empathy-offline";
      "empathy-offline" ].

Definition default_messages : list (option string) :=
  c_string_array NUM_TP_CONNECTION_PRESENCE_TYPES
    [ "Unset";
      "Offline";
      "Available";
      "Away";
      "Extended Away";
      "Hidden";
      "Busy";
      "Unknown";
      "Error" ].

(** ** The widget's private structure *)

Record PresenceWidgetPrivate : Type := mkPrivate {
  account : option ptr;          (* TpAccount * *)
  statuses : option ptr;         (* GHashTable * *)
  enabled_check : option ptr;    (* GtkWidget * *)
  status_icon : option ptr;      (* GtkWidget * *)
  status_message : option ptr;   (* GtkWidget * *)
  updating_ui_lock : Z           (* gint *)
}.

(** Instance memory is zero-filled when GObject allocates it. *)
Definition zeroed_private : PresenceWidgetPrivate :=
  mkPrivate None None None None None 0.

Definition set_account (v : option ptr) (p : PresenceWidgetPrivate) :=
  mkPrivate v (statuses p) (enabled_check p) (status_icon p)
    (status_message p) (updating_ui_lock p).
Definition set_statuses (v : option ptr) (p : PresenceWidgetPrivate) :=
  mkPrivate (account p) v (enabled_check p) (status_icon p)
    (status_message p) (updating_ui_lock p).
Definition set_enabled_check (v : option ptr) (p : PresenceWidgetPrivate) :=
  mkPrivate (account p) (statuses p) v (status_icon p)
    (status_message p) (updating_ui_lock p).
Definition set_status_icon (v : option ptr) (p : PresenceWidgetPrivate) :=
  mkPrivate (account p) (statuses p) (enabled_check p) v
    (status_message p) (updating_ui_lock p).
Definition set_status_message (v : option ptr) (p : PresenceWidgetPrivate) :=
  mkPrivate (account p) (statuses p) (enabled_check p) (status_icon p)
    v (updating_ui_lock p).
Definition set_updating_ui_lock (v : Z) (p : PresenceWidgetPrivate) :=
  mkPrivate (account p) (statuses p) (enabled_check p) (status_icon p)
    (status_message p) v.

(* properties *)
Definition PROP_0 : N := 0.
Definition PROP_ACCOUNT : N := 1.

(** ** Toolkit objects *)

(** A check button: its [active] state and the text of its label
    ([NULL] until one is set). *)
Record GtkToggleButton : Type := mkToggle {
  active : bool;
  label : option string
}.

(** ** Signal connections *)

(** The C functions of this file that are used as signal handlers. *)
Inductive Handler : Type :=
  | H_notify_enabled
  | H_notify_display_name
  | H_notify_presence
  | H_notify_status_message
  | H_status_changed
  | H_account_removed
  | H_enabled_toggled.

(** One [g_signal_connect_swapped (instance, signal, handler, data)]. *)
Record SignalConnection : Type := mkConnection {
  sc_instance : ptr;
  sc_signal : string;
  sc_handler : Handler;
  sc_data : ptr
}.

(** The C functions of this file that are passed as completion
    callbacks of asynchronous requests. *)
Inductive Callback : Type :=
  | CB_connection_ready
  | CB_get_property_statuses.

(** ** Calls that leave the component *)

Inductive Call : Type :=
  | Call_tp_account_set_enabled_async (account : option ptr) (enabled : bool)
  | Call_tp_connection_call_when_ready
      (conn : ptr) (callback : Callback) (user_data : ptr)
  | Call_tp_cli_dbus_properties_call_get
      (conn : ptr) (iface prop : string) (callback : Callback) (weak_object : ptr)
  | Call_g_warning (msg : string)
  | Call_g_return_if_fail_warning (expr : string)
  | Call_warn_invalid_property_id (self : ptr) (prop_id : N)
  | Call_gtk_widget_destroy (widget : ptr)
  | Call_parent_dispose (self : ptr)
  | Call_gtk_layout (fn : string) (args : list ptr).

Global Instance Callback_eq_dec : EqDecision Callback.
Proof. solve_decision. Defined.
Global Instance Call_eq_dec : EqDecision Call.
Proof. solve_decision. Defined.

(** ** The world *)

Record World : Type := mkWorld {
  next : ptr;                                   (* next unused address *)
  widgets : gmap ptr PresenceWidgetPrivate;     (* PresenceWidget instances *)
  toggles : gmap ptr GtkToggleButton;
  images : gmap ptr (option string);            (* GtkImage: icon name *)
  labels : gmap ptr string;                     (* GtkLabel: text *)
  accounts : gmap ptr TpAccount;
  connections : gmap ptr (gset string);         (* TpConnection: interfaces *)
  refs : gmap ptr nat;                          (* reference counts *)
  signals : list SignalConnection;
  calls : list Call
}.

Definition empty_world : World :=
  mkWorld 1%positive ∅ ∅ ∅ ∅ ∅ ∅ ∅ [] [].

Definition with_next (f : ptr → ptr) (w : World) : World :=
  mkWorld (f (next w)) (widgets w) (toggles w) (images w) (labels w)
    (accounts w) (connections w) (refs w) (signals w) (calls w).
Definition with_widgets (f : gmap ptr PresenceWidgetPrivate → _) (w : World) : World :=
  mkWorld (next w) (f (widgets w)) (toggles w) (images w) (labels w)
    (accounts w) (connections w) (refs w) (signals w) (calls w).
Definition with_toggles (f : gmap ptr GtkToggleButton → _) (w : World) : World :=
  mkWorld (next w) (widgets w) (f (toggles w)) (images w) (labels w)
    (accounts w) (connections w) (refs w) (signals w) (calls w).
Definition with_images (f : gmap ptr (option string) → _) (w : World) : World :=
  mkWorld (next w) (widgets w) (toggles w) (f (images w)) (labels w)
    (accounts w) (connections w) (refs w) (signals w) (calls w).
Definition with_labels (f : gmap ptr string → _) (w : World) : World :=
  mkWorld (next w) (widgets w) (toggles w) (images w) (f (labels w))
    (accounts w) (connections w) (refs w) (signals w) (calls w).
Definition with_accounts (f : gmap ptr TpAccount → _) (w : World) : World :=
  mkWorld (next w) (widgets w) (toggles w) (images w) (labels w)
    (f (accounts w)) (connections w) (refs w) (signals w) (calls w).
Definition with_connections (f : gmap ptr (gset string) → _) (w : World) : World :=
  mkWorld (next w) (widgets w) (toggles w) (images w) (labels w)
    (accounts w) (f (connections w)) (refs w) (signals w) (calls w).
Definition with_refs (f : gmap ptr nat → _) (w : World) : World :=
  mkWorld (next w) (widgets w) (toggles w) (images w) (labels w)
    (accounts w) (connections w) (f (refs w)) (signals w) (calls w).
Definition with_signals (f : list SignalConnection → _) (w : World) : World :=
  mkWorld (next w) (widgets w) (toggles w) (images w) (labels w)
    (accounts w) (connections w) (refs w) (f (signals w)) (calls w).
Definition with_calls (f : list Call → _) (w : World) : World :=
  mkWorld (next w) (widgets w) (toggles w) (images w) (labels w)
    (accounts w) (connections w) (refs w) (signals w) (f (calls w)).

(** ** The monad of C computations *)

Definition M (A : Type) : Type := World → option (A * World).

Global Instance M_ret : MRet M := λ A x w, Some (x, w).
Global Instance M_bind : MBind M := λ A B f m w,
  match m w with
  | Some (x, w') => f x w'
  | None => None
  end.

Definition fail {A} : M A := λ _, None.
Definition gets {A} (f : World → A) : M A := λ w, Some (f w, w).
Definition modify (f : World → World) : M unit := λ w, Some (tt, f w).
Definition from_option {A} (o : option A) : M A :=
  match o with Some x => mret x | None => fail end.

(** Run a computation for its final world. *)
Definition exec {A} (m : M A) (w : World) : option World := snd <$> m w.

Fixpoint for_each {A} (f : A → M unit) (l : list A) : M unit :=
  match l with
  | [] => mret tt
  | x :: l' => f x ;; for_each f l'
  end.

(** Append a call to the log. *)
Definition call (c : Call) : M unit := modify (with_calls (λ l, (l ++ [c])%list)).

(** A fresh address. *)
Definition alloc : M ptr :=
  p ← gets next; modify (with_next Pos.succ) ;; mret p.

(** ** GLib, GTK and telepathy-glib primitives

    These libraries are not part of the file; what follows is the part
    of their documented behaviour the file relies on.  A call that breaks
    a precondition of a library function ([NULL] where an object is
    required, a reference dropped on a freed object) fails. *)

(** [GET_PRIVATE (obj)]: the private structure of a PresenceWidget. *)
Definition GET_PRIVATE (self : ptr) : M PresenceWidgetPrivate :=
  o ← gets (λ w, widgets w !! self); from_option o.

(** A store through the [priv] pointer: [priv->field = ...]. *)
Definition update_private (self : ptr)
    (f : PresenceWidgetPrivate → PresenceWidgetPrivate) : M unit :=
  p ← GET_PRIVATE self; modify (with_widgets <[self := f p]>).

(** Taking a reference on a live reference-counted object. *)
Definition g_ref (o : option ptr) : M ptr :=
  p ← from_option o;
  n ← (r ← gets (λ w, refs w !! p); from_option r);
  match n with
  | O => fail
  | S _ => modify (with_refs <[p := S n]>) ;; mret p
  end.

(** Dropping a reference; the object is freed with its last reference.
    Dropping a reference on [NULL] or on a freed object is an error. *)
Definition g_unref (o : option ptr) : M unit :=
  p ← from_option o;
  n ← (r ← gets (λ w, refs w !! p); from_option r);
  match n with
  | O => fail
  | S O => modify (with_refs (delete p))
  | S n' => modify (with_refs <[p := n']>)
  end.

Definition g_object_unref := g_unref.
Definition g_hash_table_ref := g_ref.
Definition g_hash_table_unref (h : ptr) : M unit := g_unref (Some h).

(** [g_value_dup_object]: the object in the value with one more
    reference, or [NULL] if the value holds [NULL]. *)
Definition g_value_dup_object (value : GValue) : M (option ptr) :=
  match g_value_pointer value with
  | Some p => q ← g_ref (Some p); mret (Some q)
  | None => mret None
  end.

(** [g_value_set_object (value, v_object)]: the value takes a
    reference of its own on [v_object] (if it is not [NULL]), holds it, and
    drops the reference on the object it held before (if any). *)
Definition g_value_set_object (value : GValue) (v_object : option ptr) : M GValue :=
  match v_object with
  | Some p => _ ← g_ref (Some p); mret tt
  | None => mret tt
  end ;;
  match g_value_pointer value with
  | Some old => g_unref (Some old)
  | None => mret tt
  end ;;
  mret (mkGValue (g_value_type value) v_object).

Definition g_value_get_boxed (value : option GValue) : M (option ptr) :=
  v ← from_option value; mret (g_value_pointer v).

(** [g_signal_connect_swapped (instance, signal, handler, data)]. *)
Definition g_signal_connect_swapped (instance : option ptr) (signal : string)
    (handler : Handler) (data : ptr) : M unit :=
  i ← from_option instance;
  modify (with_signals (λ l, (l ++ [mkConnection i signal handler data])%list)).

Definition get_toggle (button : option ptr) : M GtkToggleButton :=
  b ← from_option button;
  o ← gets (λ w, toggles w !! b); from_option o.

Definition gtk_check_button_new : M ptr :=
  b ← alloc; modify (with_toggles <[b := mkToggle false None]>) ;; mret b.

Definition gtk_image_new : M ptr :=
  i ← alloc; modify (with_images <[i := None]>) ;; mret i.

Definition gtk_label_new (str : string) : M ptr :=
  l ← alloc; modify (with_labels <[l := str]>) ;; mret l.

Definition gtk_toggle_button_get_active (button : option ptr) : M bool :=
  t ← get_toggle button; mret (active t).

Definition gtk_button_set_label (button : option ptr) (str : string) : M unit :=
  t ← get_toggle button;
  b ← from_option button;
  modify (with_toggles <[b := mkToggle (active t) (Some str)]>).

Definition gtk_image_set_from_icon_name (image : option ptr)
    (icon_name : option string) : M unit :=
  i ← from_option image;
  o ← gets (λ w, images w !! i);
  _ ← from_option o;
  modify (with_images <[i := icon_name]>).

(** [gtk_label_set_text (label, str)]; [str] must not be [NULL]. *)
Definition gtk_label_set_text (lbl : option ptr) (str : option string) : M unit :=
  l ← from_option lbl;
  o ← gets (λ w, labels w !! l);
  _ ← from_option o;
  s ← from_option str;
  modify (with_labels <[l := s]>).

(** Accessors of [TpAccount]. *)
Definition get_account (a : option ptr) : M TpAccount :=
  p ← from_option a;
  o ← gets (λ w, accounts w !! p); from_option o.

Definition tp_account_is_enabled (a : option ptr) : M bool :=
  acc ← get_account a; mret (acc_enabled acc).
Definition tp_account_get_display_name (a : option ptr) : M string :=
  acc ← get_account a; mret (acc_display_name acc).
Definition tp_account_get_presence (a : option ptr) : M TpConnectionPresenceType :=
  acc ← get_account a; mret (acc_presence acc).
Definition tp_account_get_status_message (a : option ptr) : M string :=
  acc ← get_account a; mret (acc_status_message acc).
Definition tp_account_get_connection (a : option ptr) : M (option ptr) :=
  acc ← get_account a; mret (acc_connection acc).
Definition tp_account_get_connection_status (a : option ptr) : M N :=
  acc ← get_account a; mret (acc_connection_status acc).

(** [TP_IS_ACCOUNT (account)]: the pointer is not [NULL] and addresses an
    account object. *)
Definition TP_IS_ACCOUNT (a : option ptr) : M bool :=
  match a with
  | Some p => gets (λ w, bool_decide (is_Some (accounts w !! p)))
  | None => mret false
  end.

Definition tp_proxy_has_interface (conn : ptr) (iface : string) : M bool :=
  o ← gets (λ w, connections w !! conn);
  ifaces ← from_option (o : option (gset string));
  mret (bool_decide (iface ∈ (ifaces : gset string))).

(** [strlen (s) == 0]. *)
Definition strlen (s : string) : nat := String.length s.

(** ** The property accessor of presence-widget.c

    [value] is an out-parameter in C; here the function returns the value
    it leaves in it. *)

Definition presence_widget_get_property (self : ptr) (prop_id : N)
    (value : GValue) : M GValue :=
  priv ← GET_PRIVATE self;
  if bool_decide (prop_id = PROP_ACCOUNT) then
    g_value_set_object value (account priv)
  else
    call (Call_warn_invalid_property_id self prop_id) ;; mret value.

(** ** The handlers of presence-widget.c *)

Definition _enabled_toggled (self : ptr) (button : ptr) : M unit :=
  priv ← GET_PRIVATE self;
  if bool_decide (updating_ui_lock priv > 0)%Z then mret tt
  else
    b ← gtk_toggle_button_get_active (Some button);
    call (Call_tp_account_set_enabled_async (account priv) b).

(** Emission of "toggled" on a check button: every handler connected to
    that signal of that button runs, in connection order.  Only
    [_enabled_toggled] has the signature of a "toggled" handler. *)
Definition run_toggled_handler (button : ptr) (c : SignalConnection) : M unit :=
  if bool_decide (sc_instance c = button ∧ sc_signal c = "toggled") then
    match sc_handler c with
    | H_enabled_toggled => _enabled_toggled (sc_data c) button
    | _ => fail
    end
  else mret tt.

Definition emit_toggled (button : ptr) : M unit :=
  l ← gets signals; for_each (run_toggled_handler button) l.

Fixpoint deliver_toggled (n : nat) (button : ptr) : M unit :=
  match n with
  | O => mret tt
  | S n' => emit_toggled button ;; deliver_toggled n' button
  end.

Section Toolkit.

(** How many times [gtk_toggle_button_set_active] emits "toggled" before
    it returns, given the old and the new state of the button.  This is the
    toolkit's choice, not this file's, and everything below holds for any
    choice.  GTK+ 2 emits once when the state changes and not otherwise
    ([gtk2_emissions] below). *)
Context (toggled_emissions : bool → bool → nat).

Definition gtk_toggle_button_set_active (button : option ptr)
    (is_active : bool) : M unit :=
  t ← get_toggle button;
  b ← from_option button;
  modify (with_toggles <[b := mkToggle is_active (label t)]>) ;;
  deliver_toggled (toggled_emissions (active t) is_active) b.

Definition _notify_enabled (self : ptr) (pspec : option string)
    (account : option ptr) : M unit :=
  priv ← GET_PRIVATE self;
  update_private self
    (λ p, set_updating_ui_lock (wrap_gint (updating_ui_lock p + 1)) p) ;;
  enabled ← tp_account_is_enabled account;
  gtk_toggle_button_set_active (enabled_check priv) enabled ;;
  update_private self
    (λ p, set_updating_ui_lock (wrap_gint (updating_ui_lock p - 1)) p).

Definition _notify_display_name (self : ptr) (pspec : option string)
    (account : option ptr) : M unit :=
  priv ← GET_PRIVATE self;
  name ← tp_account_get_display_name account;
  gtk_button_set_label (enabled_check priv) name.

Definition _notify_presence (self : ptr) (pspec : option string)
    (account : option ptr) : M unit :=
  priv ← GET_PRIVATE self;
  presence ← tp_account_get_presence account;
  icon_name ← from_option (presence_icons !! presence_index presence);
  gtk_image_set_from_icon_name (status_icon priv) icon_name.

Definition _notify_status_message (self : ptr) (pspec : option string)
    (account : option ptr) : M unit :=
  priv ← GET_PRIVATE self;
  msg ← tp_account_get_status_message account;
  msg ← (if bool_decide (strlen msg = 0) then
           presence ← tp_account_get_presence account;
           from_option (default_messages !! presence_index presence)
         else mret (Some msg));
  gtk_label_set_text (status_message priv) msg.

Definition _get_property_statuses (conn : ptr) (value : option GValue)
    (error : option GError) (self : ptr) : M unit :=
  priv ← GET_PRIVATE self;
  match error with
  | Some e => call (Call_g_warning (message e))
  | None =>
      if G_VALUE_HOLDS value TP_HASH_TYPE_SIMPLE_STATUS_SPEC_MAP then
        match statuses priv with
        | Some old => g_hash_table_unref old
        | None => mret tt
        end ;;
        boxed ← g_value_get_boxed value;
        h ← g_hash_table_ref boxed;
        update_private self (set_statuses (Some h))
        (* FIXME: do I need to hold onto this? *)
      else
        call (Call_g_return_if_fail_warning
                "G_VALUE_HOLDS (value, TP_HASH_TYPE_SIMPLE_STATUS_SPEC_MAP)")
  end.

Definition _connection_ready (conn : ptr) (error : option GError)
    (user_data : ptr) : M unit :=
  let self := user_data in
  priv ← GET_PRIVATE self;
  match error with
  | Some e => call (Call_g_warning (message e))
  | None =>
      has ← tp_proxy_has_interface conn
              TP_IFACE_CONNECTION_INTERFACE_SIMPLE_PRESENCE;
      if (has : bool) then
        (* request the Statuses property *)
        call (Call_tp_cli_dbus_properties_call_get conn
                TP_IFACE_CONNECTION_INTERFACE_SIMPLE_PRESENCE
                "Statuses" CB_get_property_statuses self)
      else mret tt
  end.

Definition _status_changed (self : ptr) (old_status new_status reason : N)
    (account : option ptr) : M unit :=
  conn ← tp_account_get_connection account;
  match conn with
  | None => mret tt
  | Some c =>
      if bool_decide (new_status = TP_CONNECTION_STATUS_CONNECTED
                      ∨ new_status = TP_CONNECTION_STATUS_DISCONNECTED)
      then call (Call_tp_connection_call_when_ready c CB_connection_ready self)
      else mret tt
  end.

Definition presence_widget_constructed (self : ptr) : M unit :=
  priv ← GET_PRIVATE self;
  g_signal_connect_swapped (account priv) "notify::enabled"
    H_notify_enabled self ;;
  g_signal_connect_swapped (account priv) "notify::display-name"
    H_notify_display_name self ;;
  g_signal_connect_swapped (account priv) "notify::presence"
    H_notify_presence self ;;
  g_signal_connect_swapped (account priv) "notify::status-message"
    H_notify_status_message self ;;

  g_signal_connect_swapped (account priv) "status-changed"
    H_status_changed self ;;
  g_signal_connect_swapped (account priv) "removed"
    H_account_removed self ;;

  _notify_enabled self None (account priv) ;;
  _notify_display_name self None (account priv) ;;
  _notify_presence self None (account priv) ;;
  _notify_status_message self None (account priv) ;;

  status ← tp_account_get_connection_status (account priv);
  _status_changed self 0 status 0 (account priv).

(** The chain-up to the parent class at the end of the disposal is
    logged.  The check button, the image and the label, which the parent
    class destroys with the widget, stay in their stores. *)
Definition presence_widget_dispose (self : ptr) : M unit :=
  priv ← GET_PRIVATE self;
  g_object_unref (account priv) ;;
  update_private self (set_account None) ;;
  call (Call_parent_dispose self).

(** [gtk_widget_destroy (widget)] on a [PresenceWidget]: the call is
    logged, and the toolkit runs the [dispose] of the object's class
    ([g_object_run_dispose]), which [presence_widget_class_init] has set
    to [presence_widget_dispose].  What the toolkit itself does to the
    widget is done by the parent's [dispose], to which
    [presence_widget_dispose] chains up. *)
Definition gtk_widget_destroy (self : ptr) : M unit :=
  call (Call_gtk_widget_destroy self) ;;
  presence_widget_dispose self.

Definition _account_removed (self : ptr) (account : option ptr) : M unit :=
  (* this account has been removed, destroy ourselves *)
  gtk_widget_destroy self.

Definition presence_widget_set_property (self : ptr) (prop_id : N)
    (value : GValue) : M unit :=
  priv ← GET_PRIVATE self;
  if bool_decide (prop_id = PROP_ACCOUNT) then
    a ← g_value_dup_object value;
    update_private self (set_account a)
  else call (Call_warn_invalid_property_id self prop_id).

Definition presence_widget_init (self : ptr) : M unit :=
  priv ← GET_PRIVATE self;
  check ← gtk_check_button_new;
  update_private self (set_enabled_check (Some check)) ;;
  call (Call_gtk_layout "gtk_frame_set_label_widget" [self; check]) ;;
  g_signal_connect_swapped (Some check) "toggled" H_enabled_toggled self ;;

  table ← alloc;
  call (Call_gtk_layout "gtk_table_new" [table]) ;;
  call (Call_gtk_layout "gtk_container_add" [self; table]) ;;
  call (Call_gtk_layout "gtk_container_set_border_width" [table]) ;;
  call (Call_gtk_layout "gtk_table_set_col_spacings" [table]) ;;

  icon ← gtk_image_new;
  update_private self (set_status_icon (Some icon)) ;;
  call (Call_gtk_layout "gtk_table_attach" [table; icon]) ;;

  lbl ← gtk_label_new "";
  update_private self (set_status_message (Some lbl)) ;;
  call (Call_gtk_layout "gtk_table_attach" [table; lbl]) ;;

  call (Call_gtk_layout "gtk_widget_show" [check]) ;;
  call (Call_gtk_layout "gtk_widget_show_all" [table]).

(** [g_object_new (TYPE_PRESENCE_WIDGET, "account", account, NULL)]:
    GObject allocates a zero-filled instance, runs the instance
    initialiser, sets the construct property and calls [constructed], the
    virtual functions installed by [presence_widget_class_init]. *)
Definition g_object_new (account : option ptr) : M ptr :=
  self ← alloc;
  modify (with_widgets <[self := zeroed_private]>) ;;
  presence_widget_init self ;;
  presence_widget_set_property self PROP_ACCOUNT
    (mkGValue TP_TYPE_ACCOUNT account) ;;
  presence_widget_constructed self ;;
  mret self.

Definition presence_widget_new (account : option ptr) : M (option ptr) :=
  ok ← TP_IS_ACCOUNT account;
  if (ok : bool) then
    self ← g_object_new account; mret (Some self)
  else
    call (Call_g_return_if_fail_warning "TP_IS_ACCOUNT (account)") ;;
    mret None.

End Toolkit.

(** GTK+ 2: [gtk_toggle_button_set_active] emits "toggled" once when the
    state changes. *)
Definition gtk2_emissions (old new : bool) : nat :=
  if bool_decide (old = new) then 0 else 1.

(** ** The event loop

    Everything runs on one thread: between two events no handler is
    active.  An event is a call from the host program, a change made by
    the account manager, a signal emission, a click of the user, or the
    completion of an asynchronous request. *)

Inductive AccountSignal : Type :=
  | Sig_notify (prop : string)
  | Sig_status_changed (old_status new_status reason : N)
  | Sig_removed.

Definition signal_name (s : AccountSignal) : string :=
  match s with
  | Sig_notify prop => "notify::" ++ prop
  | Sig_status_changed _ _ _ => "status-changed"
  | Sig_removed => "removed"
  end.

Inductive Event : Type :=
  | Ev_account_new (v : TpAccount)
  | Ev_account_update (a : ptr) (v : TpAccount)
  | Ev_connection_new (ifaces : gset string)
  | Ev_hash_table_new
  | Ev_widget_new (account : option ptr)
  | Ev_signal (a : ptr) (s : AccountSignal)
  | Ev_clicked (button : ptr)
  | Ev_connection_ready (conn : ptr) (error : option GError) (self : ptr)
  | Ev_get_property_statuses
      (conn : ptr) (value : option GValue) (error : option GError) (self : ptr)
  | Ev_dispose (self : ptr).

Definition guard (b : bool) : M unit := if b then mret tt else fail.

Section EventLoop.

Context (toggled_emissions : bool → bool → nat).

(** Run one handler connected to an account signal, with the arguments
    of the emission; the connections are swapped, so the widget comes
    first and the emitting account last. *)
Definition run_account_handler (a : ptr) (s : AccountSignal)
    (c : SignalConnection) : M unit :=
  if bool_decide (sc_instance c = a ∧ sc_signal c = signal_name s) then
    match sc_handler c, s with
    | H_notify_enabled, Sig_notify prop =>
        _notify_enabled toggled_emissions (sc_data c) (Some prop) (Some a)
    | H_notify_display_name, Sig_notify prop =>
        _notify_display_name (sc_data c) (Some prop) (Some a)
    | H_notify_presence, Sig_notify prop =>
        _notify_presence (sc_data c) (Some prop) (Some a)
    | H_notify_status_message, Sig_notify prop =>
        _notify_status_message (sc_data c) (Some prop) (Some a)
    | H_status_changed, Sig_status_changed o n r =>
        _status_changed (sc_data c) o n r (Some a)
    | H_account_removed, Sig_removed =>
        _account_removed (sc_data c) (Some a)
    | _, _ => fail
    end
  else mret tt.

Definition emit_account_signal (a : ptr) (s : AccountSignal) : M unit :=
  l ← gets signals; for_each (run_account_handler a s) l.

(** The user clicks a check button: the toolkit flips it and emits
    "toggled". *)
Definition user_click (button : ptr) : M unit :=
  t ← get_toggle (Some button);
  modify (with_toggles <[button := mkToggle (negb (active t)) (label t)]>) ;;
  emit_toggled button.

Definition pending (c : Call) : M unit :=
  l ← gets calls; guard (bool_decide (c ∈ (l : list Call))).

Definition handle (e : Event) : M unit :=
  match e with
  | Ev_account_new v =>
      a ← alloc;
      modify (with_accounts <[a := v]>) ;;
      modify (with_refs <[a := 1]>)
  | Ev_account_update a v =>
      _ ← get_account (Some a);
      modify (with_accounts <[a := v]>)
  | Ev_connection_new ifaces =>
      c ← alloc;
      modify (with_connections <[c := ifaces]>) ;;
      modify (with_refs <[c := 1]>)
  | Ev_hash_table_new =>
      h ← alloc;
      modify (with_refs <[h := 1]>)
  | Ev_widget_new account =>
      _ ← presence_widget_new toggled_emissions account; mret tt
  | Ev_signal a s => emit_account_signal a s
  | Ev_clicked button => user_click button
  | Ev_connection_ready conn error self =>
      pending (Call_tp_connection_call_when_ready conn CB_connection_ready self) ;;
      _connection_ready conn error self
  | Ev_get_property_statuses conn value error self =>
      pending (Call_tp_cli_dbus_properties_call_get conn
                 TP_IFACE_CONNECTION_INTERFACE_SIMPLE_PRESENCE "Statuses"
                 CB_get_property_statuses self) ;;
      _get_property_statuses conn value error self
  | Ev_dispose self => presence_widget_dispose self
  end.

Definition step (w : World) (e : Event) : option World := exec (handle e) w.

Fixpoint run (w : World) (es : list Event) : option World :=
  match es with
  | [] => Some w
  | e :: es' => w' ← step w e; run w' es'
  end.

(** The worlds the program can be in between two events. *)
Inductive reachable : World → Prop :=
  | reachable_start : reachable empty_world
  | reachable_step w e w' :
      reachable w → step w e = Some w' → reachable w'.

End EventLoop.

(** * Vocabulary of the specification *)

(** ** Relations kept by a computation *)

(** [preserves R m]: whenever [m] returns, the final world is related to
    the initial one by [R]. *)
Definition preserves (R : relation World) {A} (m : M A) : Prop :=
  ∀ w x w', m w = Some (x, w') → R w w'.

(** [invariant P m]: [m] takes worlds satisfying [P] to worlds
    satisfying [P]. *)
Definition invariant (P : World → Prop) {A} (m : M A) : Prop :=
  ∀ w x w', P w → m w = Some (x, w') → P w'.

(** ** What the handlers leave alone *)

(** The account store is the account manager's: no function of this file
    writes to it. *)
Definition same_accounts (w w' : World) : Prop := accounts w' = accounts w.

(** The call log is as it was. *)
Definition same_calls (w w' : World) : Prop := calls w' = calls w.

(** [frame w w']: no address was given back, no signal connection
    changed, every widget kept its check button and its guard counter,
    and no toggle button disappeared. *)
Record frame (w w' : World) : Prop := mkFrame {
  frame_next : (next w ≤ next w')%positive;
  frame_signals : signals w' = signals w;
  frame_widgets : ∀ self p, widgets w !! self = Some p →
    ∃ p', widgets w' !! self = Some p'
          ∧ enabled_check p' = enabled_check p
          ∧ updating_ui_lock p' = updating_ui_lock p;
  frame_no_widget : ∀ self, widgets w !! self = None → widgets w' !! self = None;
  frame_toggles : ∀ b, is_Some (toggles w !! b) → is_Some (toggles w' !! b)
}.

(** ** The invariant of the event loop *)

(** Between two events: every guard counter is zero; every widget has a
    check button of its own, which exists; the only handlers connected to
    "toggled" are [_enabled_toggled] of the widget that owns the button;
    and the only handler connected to "removed" is [_account_removed]. *)
Record wf (w : World) : Prop := mkWf {
  wf_lock : ∀ self p, widgets w !! self = Some p → updating_ui_lock p = 0%Z;
  wf_fresh : ∀ self p, widgets w !! self = Some p → (self < next w)%positive;
  wf_check : ∀ self p, widgets w !! self = Some p →
    ∃ b, enabled_check p = Some b ∧ is_Some (toggles w !! b)
         ∧ (b < next w)%positive;
  wf_check_inj : ∀ s1 s2 p1 p2 b,
    widgets w !! s1 = Some p1 → widgets w !! s2 = Some p2 →
    enabled_check p1 = Some b → enabled_check p2 = Some b → s1 = s2;
  wf_toggled : ∀ c, c ∈ signals w → sc_signal c = "toggled" →
    sc_handler c = H_enabled_toggled
    ∧ ∃ p, widgets w !! sc_data c = Some p
           ∧ enabled_check p = Some (sc_instance c);
  wf_removed : ∀ c, c ∈ signals w → sc_signal c = "removed" →
    sc_handler c = H_account_removed
}.

(** ** Reference counts *)

(** The number of references held on the object at [q]; zero when the
    object has been freed or never existed. *)
Definition refcount (w : World) (q : ptr) : nat := default 0 (refs w !! q).

(** ** Construction, step by step *)

(** The first ten steps of [presence_widget_constructed] on a widget
    bound to the account [a]: the six signal connections, then the four
    field-sync handlers, once each. *)
Definition priming (te : bool → bool → nat) (self a : ptr) : list (M unit) :=
  [ g_signal_connect_swapped (Some a) "notify::enabled" H_notify_enabled self;
    g_signal_connect_swapped (Some a) "notify::display-name"
      H_notify_display_name self;
    g_signal_connect_swapped (Some a) "notify::presence" H_notify_presence self;
    g_signal_connect_swapped (Some a) "notify::status-message"
      H_notify_status_message self;
    g_signal_connect_swapped (Some a) "status-changed" H_status_changed self;
    g_signal_connect_swapped (Some a) "removed" H_account_removed self;
    _notify_enabled te self None (Some a);
    _notify_display_name self None (Some a);
    _notify_presence self None (Some a);
    _notify_status_message self None (Some a) ].

(** ** A concrete run

    The worlds below are computed by running the event loop with the
    GTK+ 2 toolkit; they serve as concrete instances of the theorems. *)

Definition demo_account : TpAccount :=
  mkTpAccount true "Alice" TP_CONNECTION_PRESENCE_TYPE_AWAY ""
    (Some 2%positive) TP_CONNECTION_STATUS_CONNECTED.

(** The account manager creates an account (address 1) and its
    connection (address 2); the host builds a widget for the account
    (address 3, with its check button at 4, its image at 6 and its label
    at 7). *)
Definition demo_events : list Event :=
  [ Ev_account_new demo_account;
    Ev_connection_new {[ TP_IFACE_CONNECTION_INTERFACE_SIMPLE_PRESENCE ]};
    Ev_widget_new (Some 1%positive) ].

Definition demo_world : World :=
  default empty_world (run gtk2_emissions empty_world demo_events).

Definition demo_private : PresenceWidgetPrivate :=
  mkPrivate (Some 1%positive) None (Some 4%positive) (Some 6%positive)
    (Some 7%positive) 0.

Definition demo_world_initialised : World :=
  default empty_world
    (w ← run gtk2_emissions empty_world (take 2 demo_events);
     exec (self ← alloc;
           modify (with_widgets <[self := zeroed_private]>) ;;
           presence_widget_init self ;;
           presence_widget_set_property self PROP_ACCOUNT
             (mkGValue TP_TYPE_ACCOUNT (Some 1%positive))) w).

(** The account manager disables the demo account; the widget has not
    been notified yet, so its check button is still active. *)
Definition demo_account_disabled : TpAccount :=
  mkTpAccount false "Alice" TP_CONNECTION_PRESENCE_TYPE_AWAY ""
    (Some 2%positive) TP_CONNECTION_STATUS_CONNECTED.

Definition demo_events_disabled : list Event :=
  (demo_events ++ [ Ev_account_update 1%positive demo_account_disabled ])%list.

Definition demo_world_disabled : World :=
  default empty_world (run gtk2_emissions empty_world demo_events_disabled).

(** The run continues: the connection becomes ready, the widget asks for
    [Statuses], and the reply is being built (a status map at address 8,
    held by the reply's [GValue]). *)
Definition demo_events_probe : list Event :=
  (demo_events ++ [ Ev_connection_ready 2%positive None 3%positive;
                    Ev_hash_table_new ])%list.

Definition demo_world_probe : World :=
  default empty_world (run gtk2_emissions empty_world demo_events_probe).

Definition demo_status_map : option GValue :=
  Some (mkGValue TP_HASH_TYPE_SIMPLE_STATUS_SPEC_MAP (Some 8%positive)).

(** The reply arrives and the widget caches the map; later a second
    status map (at address 9) is built for another reply. *)
Definition demo_events_cached : list Event :=
  (demo_events_probe
   ++ [ Ev_get_property_statuses 2%positive demo_status_map None 3%positive;
        Ev_hash_table_new ])%list.

Definition demo_world_cached : World :=
  default empty_world (run gtk2_emissions empty_world demo_events_cached).

Definition demo_private_cached : PresenceWidgetPrivate :=
  set_statuses (Some 8%positive) demo_private.

(** ** What construction logs *)

(** The readiness request that [_status_changed] makes for an account
    whose status has become [new_status]: one if the account has a
    connection and the status is Connected or Disconnected, none
    otherwise. *)
Definition probe_calls (self : ptr) (new_status : N) (acc : TpAccount) : list Call :=
  match acc_connection acc with
  | Some c =>
      if bool_decide (new_status = TP_CONNECTION_STATUS_CONNECTED
                      ∨ new_status = TP_CONNECTION_STATUS_DISCONNECTED)
      then [Call_tp_connection_call_when_ready c CB_connection_ready self]
      else []
  | None => []
  end.

(** The layout calls of [presence_widget_init] for a widget at [self]
    whose check button, table, image and label are at the four addresses
    that follow. *)
Definition layout_calls (self check table icon lbl : ptr) : list Call :=
  [ Call_gtk_layout "gtk_frame_set_label_widget" [self; check];
    Call_gtk_layout "gtk_table_new" [table];
    Call_gtk_layout "gtk_container_add" [self; table];
    Call_gtk_layout "gtk_container_set_border_width" [table];
    Call_gtk_layout "gtk_table_set_col_spacings" [table];
    Call_gtk_layout "gtk_table_attach" [table; icon];
    Call_gtk_layout "gtk_table_attach" [table; lbl];
    Call_gtk_layout "gtk_widget_show" [check];
    Call_gtk_layout "gtk_widget_show_all" [table] ].

(** The signal connections a new widget at [self] makes: one on its
    check button, six on its account. *)
Definition new_connections (self check a : ptr) : list SignalConnection :=
  [ mkConnection check "toggled" H_enabled_toggled self;
    mkConnection a "notify::enabled" H_notify_enabled self;
    mkConnection a "notify::display-name" H_notify_display_name self;
    mkConnection a "notify::presence" H_notify_presence self;
    mkConnection a "notify::status-message" H_notify_status_message self;
    mkConnection a "status-changed" H_status_changed self;
    mkConnection a "removed" H_account_removed self ].

(** ** The second invariant of the event loop *)

(** The signals this file connects to, each with its handler. *)
Definition connection_kinds : list (string * Handler) :=
  [ ("toggled", H_enabled_toggled);
    ("notify::enabled", H_notify_enabled);
    ("notify::display-name", H_notify_display_name);
    ("notify::presence", H_notify_presence);
    ("notify::status-message", H_notify_status_message);
    ("status-changed", H_status_changed);
    ("removed", H_account_removed) ].

(** [keeps w w']: every widget kept its image and its label, and no
    image, label or account disappeared. *)
Record keeps (w w' : World) : Prop := mkKeeps {
  keeps_widgets : ∀ self p, widgets w !! self = Some p →
    ∃ p', widgets w' !! self = Some p'
          ∧ status_icon p' = status_icon p
          ∧ status_message p' = status_message p;
  keeps_images : ∀ k, is_Some (images w !! k) → is_Some (images w' !! k);
  keeps_labels : ∀ k, is_Some (labels w !! k) → is_Some (labels w' !! k);
  keeps_accounts : ∀ k, is_Some (accounts w !! k) → is_Some (accounts w' !! k)
}.

(** Between two events: every connection is one of the seven kinds, is
    given a widget as data and, unless it is on a check button, is made on
    an account; every widget has an image and a label, which exist; and
    the check button of every widget has exactly one "toggled" handler,
    that of the widget. *)
Record sound (w : World) : Prop := mkSound {
  sound_kinds : ∀ c, c ∈ signals w →
    (sc_signal c, sc_handler c) ∈ connection_kinds;
  sound_data : ∀ c, c ∈ signals w → is_Some (widgets w !! sc_data c);
  sound_account : ∀ c, c ∈ signals w → sc_signal c ≠ "toggled" →
    is_Some (accounts w !! sc_instance c);
  sound_icon : ∀ self p, widgets w !! self = Some p →
    ∃ i, status_icon p = Some i ∧ is_Some (images w !! i)
         ∧ (i < next w)%positive;
  sound_label : ∀ self p, widgets w !! self = Some p →
    ∃ l, status_message p = Some l ∧ is_Some (labels w !! l)
         ∧ (l < next w)%positive;
  sound_one_handler : ∀ self p b,
    widgets w !! self = Some p → enabled_check p = Some b →
    filter (λ c, sc_instance c = b ∧ sc_signal c = "toggled") (signals w)
    = [mkConnection b "toggled" H_enabled_toggled self]
}.

(** Both invariants together. *)
Definition good (w : World) : Prop := wf w ∧ sound w.

(** The demo run before the host builds the widget: the account (address
    1) and its connection (address 2) exist. *)
Definition demo_world_accounts : World :=
  default empty_world (run gtk2_emissions empty_world (take 2 demo_events)).

(** ** More demo worlds *)

(** A second connection (address 8) that does not have the
    simple-presence interface. *)
Definition demo_events_plain : list Event :=
  (demo_events ++ [ Ev_connection_new ∅ ])%list.

Definition demo_world_plain : World :=
  default empty_world (run gtk2_emissions empty_world demo_events_plain).

(** The demo widget as its initialiser leaves it, before the account
    property is set. *)
Definition demo_world_unbound : World :=
  default empty_world
    (w ← run gtk2_emissions empty_world (take 2 demo_events);
     exec (self ← alloc;
           modify (with_widgets <[self := zeroed_private]>) ;;
           presence_widget_init self) w).

Definition demo_private_unbound : PresenceWidgetPrivate :=
  set_account None demo_private.

(** ** What the tables tell apart *)

(** The presence types that the icon table shows as offline. *)
Definition shown_offline (p : TpConnectionPresenceType) : bool :=
  match p with
  | TP_CONNECTION_PRESENCE_TYPE_UNSET
  | TP_CONNECTION_PRESENCE_TYPE_OFFLINE
  | TP_CONNECTION_PRESENCE_TYPE_HIDDEN
  | TP_CONNECTION_PRESENCE_TYPE_UNKNOWN
  | TP_CONNECTION_PRESENCE_TYPE_ERROR => true
  | _ => false
  end.

(** ** Widgets that are still in use *)

(** [listeners_live a w]: every widget connected to a signal of the
    account [a] still holds an account, that is, none of them has been
    disposed of or destroyed. *)
Definition listeners_live (a : ptr) (w : World) : bool :=
  forallb (λ c, if decide (sc_instance c = a) then
                  match widgets w !! sc_data c with
                  | Some p => match account p with Some _ => true | None => false end
                  | None => false
                  end
                else true) (signals w).

(** * Reasoning about computations *)

Lemma bind_Some {A B} (m : M A) (f : A → M B) (w : World) (r : B * World) :
  (m ≫= f) w = Some r ↔ ∃ x w1, m w = Some (x, w1) ∧ f x w1 = Some r.
Proof.
  unfold mbind, M_bind. split.
  - destruct (m w) as [[x w1]|] eqn:E; [eauto | discriminate].
  - intros (x & w1 & -> & H). exact H.
Qed.

Lemma bind_run {A B} (m : M A) (f : A → M B) (w w1 : World) (x : A) :
  m w = Some (x, w1) → (m ≫= f) w = f x w1.
Proof. unfold mbind, M_bind. intros ->. reflexivity. Qed.

Lemma exec_Some {A} (m : M A) (w w' : World) :
  exec m w = Some w' ↔ ∃ x, m w = Some (x, w').
Proof.
  unfold exec. destruct (m w) as [[x w1]|]; simpl; split.
  - intros [= ->]. eauto.
  - intros [y [= _ ->]]. reflexivity.
  - discriminate.
  - intros [y ?]. discriminate.
Qed.

(** The projections of an updated world are computed by [simpl]. *)
Arguments with_next _ _ /.
Arguments with_widgets _ _ /.
Arguments with_toggles _ _ /.
Arguments with_images _ _ /.
Arguments with_labels _ _ /.
Arguments with_accounts _ _ /.
Arguments with_connections _ _ /.
Arguments with_refs _ _ /.
Arguments with_signals _ _ /.
Arguments with_calls _ _ /.

(** Unfolding the primitives down to functions on worlds. *)
Ltac unfold_M :=
  unfold update_private, call, alloc, GET_PRIVATE, get_toggle, get_account,
    guard, from_option, gets, modify, fail, mbind, M_bind, mret, M_ret in *.

(** Running a computation symbolically: unfold, reduce, and rewrite with
    the known contents of the stores until nothing moves. *)
Tactic Notation "run_M" "using" tactic3(t) :=
  unfold_M; repeat first [progress simpl | progress t].

(** ** Rules for [preserves] and [invariant] *)

Section Preserves.

Context (R : relation World) `{!PreOrder R}.

Lemma preserves_mret {A} (x : A) : preserves R (mret x).
Proof. unfold preserves. unfold_M. simpl. intros w y w' [= _ <-]. reflexivity. Qed.

Lemma preserves_fail {A} : preserves R (@fail A).
Proof. unfold preserves. unfold_M. simpl. intros w y w'. discriminate. Qed.

Lemma preserves_gets {A} (f : World → A) : preserves R (gets f).
Proof. unfold preserves. unfold_M. simpl. intros w y w' [= _ <-]. reflexivity. Qed.

Lemma preserves_from_option {A} (o : option A) : preserves R (from_option o).
Proof. destruct o; [apply preserves_mret | apply preserves_fail]. Qed.

Lemma preserves_guard (b : bool) : preserves R (guard b).
Proof. destruct b; [apply preserves_mret | apply preserves_fail]. Qed.

Lemma preserves_modify (f : World → World) :
  (∀ w, R w (f w)) → preserves R (modify f).
Proof. unfold preserves. unfold_M. simpl. intros H w y w' [= _ <-]. apply H. Qed.

Lemma preserves_bind {A B} (m : M A) (f : A → M B) :
  preserves R m → (∀ x, preserves R (f x)) → preserves R (m ≫= f).
Proof.
  intros Hm Hf w y w' (x & w1 & H1 & H2)%bind_Some.
  transitivity w1; [eapply Hm | eapply Hf]; eassumption.
Qed.

Lemma preserves_for_each {A} (f : A → M unit) (l : list A) :
  (∀ x, x ∈ l → preserves R (f x)) → preserves R (for_each f l).
Proof.
  induction l as [|x l IH]; intros H; simpl.
  - apply preserves_mret.
  - apply preserves_bind.
    + apply H. left.
    + intros _. apply IH. intros y Hy. apply H. right. exact Hy.
Qed.

Lemma preserves_if {A} (b : bool) (m1 m2 : M A) :
  preserves R m1 → preserves R m2 → preserves R (if b then m1 else m2).
Proof. destruct b; auto. Qed.

(** A store through [priv] keeps [R] if replacing the private structure
    of an existing widget does. *)
Lemma preserves_update_private self f :
  (∀ w p, widgets w !! self = Some p → R w (with_widgets <[self := f p]> w)) →
  preserves R (update_private self f).
Proof.
  intros H w y w'. unfold_M. simpl.
  destruct (widgets w !! self) as [p|] eqn:E; simpl; [|discriminate].
  intros [= _ <-]. apply H, E.
Qed.

End Preserves.

Lemma invariant_bind (P : World → Prop) {A B} (m : M A) (f : A → M B) :
  invariant P m → (∀ x, invariant P (f x)) → invariant P (m ≫= f).
Proof.
  intros Hm Hf w y w' HP (x & w1 & H1 & H2)%bind_Some.
  eapply Hf; [|exact H2]. eapply Hm; eassumption.
Qed.

Lemma invariant_for_each (P : World → Prop) {A} (f : A → M unit) (l : list A) :
  (∀ x, x ∈ l → invariant P (f x)) → invariant P (for_each f l).
Proof.
  induction l as [|x l IH]; intros H; simpl.
  - unfold invariant. unfold_M. simpl. intros w y w' HP [= _ <-]. exact HP.
  - apply invariant_bind.
    + apply H. left.
    + intros _. apply IH. intros y Hy. apply H. right. exact Hy.
Qed.

Lemma preserves_invariant (R : relation World) (P : World → Prop) {A} (m : M A) :
  (∀ w w', P w → R w w' → P w') → preserves R m → invariant P m.
Proof. intros HR Hm w x w' HP H. eapply HR; [exact HP|]. eapply Hm, H. Qed.

(** A computation that returns leaving the world as it found it, run any
    number of times in a row. *)
Lemma for_each_idle {A} (f : A → M unit) (l : list A) (w : World) :
  (∀ x, x ∈ l → f x w = Some (tt, w)) → for_each f l w = Some (tt, w).
Proof.
  induction l as [|x l IH]; intros H; simpl; [reflexivity|].
  rewrite (bind_run _ _ w w tt).
  - apply IH. intros y Hy. apply H. right. exact Hy.
  - apply H. left.
Qed.

Lemma deliver_toggled_idle (n : nat) (button : ptr) (w : World) :
  emit_toggled button w = Some (tt, w) →
  deliver_toggled n button w = Some (tt, w).
Proof.
  intros H. induction n as [|n IH]; simpl; [reflexivity|].
  rewrite (bind_run _ _ w w tt H). exact IH.
Qed.

Ltac preserves_step :=
  match goal with
  | |- PreOrder _ => typeclasses eauto
  | |- preserves _ (_ ≫= _) => apply preserves_bind; [..|intros ?]
  | |- preserves _ (mret _) => apply preserves_mret
  | |- preserves _ fail => apply preserves_fail
  | |- preserves _ (gets _) => apply preserves_gets
  | |- preserves _ (from_option _) => apply preserves_from_option
  | |- preserves _ (guard _) => apply preserves_guard
  | |- preserves _ (for_each _ _) => apply preserves_for_each; [..|intros ? _]
  | |- preserves _ (modify _) => apply preserves_modify; intros ?
  | |- preserves _ (update_private _ _) =>
      apply preserves_update_private; intros ? ? ?
  | |- preserves _ (if ?b then _ else _) => destruct b
  | |- preserves _ (match ?x with _ => _ end) => destruct x
  end.

Ltac preserves_auto := repeat preserves_step.

(** ** What the handlers leave alone *)

#[local] Instance same_accounts_preorder : PreOrder same_accounts.
Proof.
  split; [intros w; reflexivity|].
  intros w1 w2 w3 H12 H23. unfold same_accounts in *. congruence.
Qed.

#[local] Instance same_calls_preorder : PreOrder same_calls.
Proof.
  split; [intros w; reflexivity|].
  intros w1 w2 w3 H12 H23. unfold same_calls in *. congruence.
Qed.

#[local] Instance frame_preorder : PreOrder frame.
Proof.
  split.
  - intros w. split; eauto. reflexivity.
  - intros w1 w2 w3 [N1 S1 W1 D1 T1] [N2 S2 W2 D2 T2]. split.
    + etransitivity; eassumption.
    + congruence.
    + intros self p Hp.
      destruct (W1 self p Hp) as (p2 & Hp2 & Hc2 & Hl2).
      destruct (W2 self p2 Hp2) as (p3 & Hp3 & Hc3 & Hl3).
      exists p3. repeat split; congruence.
    + auto.
    + auto.
Qed.

Lemma frame_calls f w : frame w (with_calls f w).
Proof. split; simpl; eauto. reflexivity. Qed.

Lemma frame_refs f w : frame w (with_refs f w).
Proof. split; simpl; eauto. reflexivity. Qed.

Lemma frame_images f w : frame w (with_images f w).
Proof. split; simpl; eauto. reflexivity. Qed.

Lemma frame_labels f w : frame w (with_labels f w).
Proof. split; simpl; eauto. reflexivity. Qed.

Lemma frame_accounts f w : frame w (with_accounts f w).
Proof. split; simpl; eauto. reflexivity. Qed.

Lemma frame_connections f w : frame w (with_connections f w).
Proof. split; simpl; eauto. reflexivity. Qed.

Lemma frame_next_succ w : frame w (with_next Pos.succ w).
Proof. split; simpl; eauto. lia. Qed.

Lemma frame_toggles_insert b t w : frame w (with_toggles <[b := t]> w).
Proof.
  split; simpl; eauto; [reflexivity|].
  intros b' H. apply lookup_insert_is_Some.
  destruct (decide (b = b')); [left|right]; auto.
Qed.

Lemma frame_widgets_insert self p p' w :
  widgets w !! self = Some p →
  enabled_check p' = enabled_check p →
  updating_ui_lock p' = updating_ui_lock p →
  frame w (with_widgets <[self := p']> w).
Proof.
  intros Hp Hc Hl. split; simpl; eauto; [reflexivity| |].
  - intros s q Hq. destruct (decide (self = s)) as [->|Hne].
    + rewrite lookup_insert_eq. exists p'. split; [reflexivity|]. split; congruence.
    + rewrite lookup_insert_ne by done. eauto.
  - intros s Hs. rewrite lookup_insert_ne; [done|]. congruence.
Qed.

Create HintDb frame.
#[local] Hint Resolve frame_calls frame_refs frame_images frame_labels
  frame_accounts frame_connections frame_next_succ frame_toggles_insert
  : frame.

(** ** The guard at work *)

Lemma wrap_gint_small (z : Z) :
  (- 2 ^ 31 ≤ z < 2 ^ 31)%Z → wrap_gint z = z.
Proof. intros H. unfold wrap_gint. rewrite Z.mod_small; lia. Qed.

(** With the guard raised, [_enabled_toggled] returns at once. *)
Lemma enabled_toggled_suppressed self button p w :
  widgets w !! self = Some p →
  (updating_ui_lock p > 0)%Z →
  _enabled_toggled self button w = Some (tt, w).
Proof.
  intros Hp Hl. unfold _enabled_toggled. unfold_M. rewrite Hp.
  rewrite bool_decide_eq_true_2 by exact Hl. reflexivity.
Qed.

(** An emission of "toggled" is without effect when every handler
    connected to the button belongs to a widget whose guard is raised. *)
Lemma emit_toggled_suppressed button w :
  (∀ c, c ∈ signals w → sc_instance c = button → sc_signal c = "toggled" →
     sc_handler c = H_enabled_toggled
     ∧ ∃ p, widgets w !! sc_data c = Some p ∧ (updating_ui_lock p > 0)%Z) →
  emit_toggled button w = Some (tt, w).
Proof.
  intros H. unfold emit_toggled.
  rewrite (bind_run _ _ w w (signals w)) by reflexivity.
  apply for_each_idle. intros c Hc. unfold run_toggled_handler.
  case_bool_decide as Hd; [|reflexivity].
  destruct Hd as [Hi Hs]. destruct (H c Hc Hi Hs) as (-> & p & Hp & Hl).
  eapply enabled_toggled_suppressed; eassumption.
Qed.

Section Guard.

Context (toggled_emissions : bool → bool → nat).

(** The effect of [_notify_enabled] on a widget whose guard can be
    raised, whose check button exists, and whose check button has no
    "toggled" handler other than the widget's own: the button takes the
    account's value and nothing else changes. *)
Lemma notify_enabled_exact self pspec a p b t acc w :
  widgets w !! self = Some p →
  (0 ≤ updating_ui_lock p < 2 ^ 31 - 1)%Z →
  enabled_check p = Some b →
  toggles w !! b = Some t →
  accounts w !! a = Some acc →
  (∀ c, c ∈ signals w → sc_instance c = b → sc_signal c = "toggled" →
     sc_handler c = H_enabled_toggled ∧ sc_data c = self) →
  _notify_enabled toggled_emissions self pspec (Some a) w =
    Some (tt, with_toggles <[b := mkToggle (acc_enabled acc) (label t)]> w).
Proof.
  intros Hp Hl Hb Ht Ha Hsig.
  unfold _notify_enabled, tp_account_is_enabled, gtk_toggle_button_set_active.
  run_M using (rewrite ?Hp, ?Ha, ?Hb, ?Ht).
  rewrite (wrap_gint_small (_ + 1)) by lia.
  rewrite deliver_toggled_idle.
  - run_M using (rewrite ?lookup_insert_eq).
    rewrite wrap_gint_small by lia.
    rewrite insert_insert_eq.
    replace (updating_ui_lock p + 1 - 1)%Z with (updating_ui_lock p) by lia.
    rewrite (insert_id (widgets w) self); [reflexivity|].
    rewrite Hp. destruct p; reflexivity.
  - apply emit_toggled_suppressed. simpl. intros c Hc Hi Hs.
    destruct (Hsig c Hc Hi Hs) as [Hh ->]. split; [exact Hh|].
    eexists. rewrite lookup_insert_eq. split; [reflexivity|]. simpl. lia.
Qed.

End Guard.

(** ** Handlers that stay within the frame *)

Ltac frame_auto :=
  preserves_auto;
  try solve [ eauto with frame
            | eapply frame_widgets_insert; [eassumption|reflexivity..] ].

Lemma frame_g_ref o : preserves frame (g_ref o).
Proof. unfold g_ref. frame_auto. Qed.

Lemma frame_g_unref o : preserves frame (g_unref o).
Proof. unfold g_unref. frame_auto. Qed.

Lemma frame_get_account a : preserves frame (get_account a).
Proof. unfold get_account. frame_auto. Qed.

Lemma frame_get_toggle b : preserves frame (get_toggle b).
Proof. unfold get_toggle. frame_auto. Qed.

Lemma frame_GET_PRIVATE self : preserves frame (GET_PRIVATE self).
Proof. unfold GET_PRIVATE. frame_auto. Qed.

Lemma frame_call c : preserves frame (call c).
Proof. unfold call. frame_auto. Qed.

#[local] Hint Resolve frame_g_ref frame_g_unref frame_get_account
  frame_get_toggle frame_GET_PRIVATE frame_call : frame.

Lemma frame_enabled_toggled self button :
  preserves frame (_enabled_toggled self button).
Proof.
  unfold _enabled_toggled, gtk_toggle_button_get_active. frame_auto.
Qed.

Lemma frame_emit_toggled button : preserves frame (emit_toggled button).
Proof.
  unfold emit_toggled. frame_auto.
  unfold run_toggled_handler. frame_auto. apply frame_enabled_toggled.
Qed.

Lemma frame_user_click button : preserves frame (user_click button).
Proof. unfold user_click. frame_auto. apply frame_emit_toggled. Qed.

Lemma frame_notify_display_name self pspec a :
  preserves frame (_notify_display_name self pspec a).
Proof.
  unfold _notify_display_name, tp_account_get_display_name,
    gtk_button_set_label.
  frame_auto.
Qed.

Lemma frame_notify_presence self pspec a :
  preserves frame (_notify_presence self pspec a).
Proof.
  unfold _notify_presence, tp_account_get_presence,
    gtk_image_set_from_icon_name.
  frame_auto.
Qed.

Lemma frame_notify_status_message self pspec a :
  preserves frame (_notify_status_message self pspec a).
Proof.
  unfold _notify_status_message, tp_account_get_status_message,
    tp_account_get_presence, gtk_label_set_text.
  frame_auto.
Qed.

Lemma frame_get_property_statuses conn value error self :
  preserves frame (_get_property_statuses conn value error self).
Proof.
  unfold _get_property_statuses, g_hash_table_unref, g_hash_table_ref,
    g_value_get_boxed.
  frame_auto.
Qed.

Lemma frame_connection_ready conn error self :
  preserves frame (_connection_ready conn error self).
Proof.
  unfold _connection_ready, tp_proxy_has_interface. frame_auto.
Qed.

Lemma frame_status_changed self o n r a :
  preserves frame (_status_changed self o n r a).
Proof.
  unfold _status_changed, tp_account_get_connection. frame_auto.
Qed.

Lemma frame_dispose self : preserves frame (presence_widget_dispose self).
Proof. unfold presence_widget_dispose, g_object_unref. frame_auto. Qed.

Lemma frame_account_removed self a : preserves frame (_account_removed self a).
Proof.
  unfold _account_removed, gtk_widget_destroy. frame_auto. apply frame_dispose.
Qed.

Lemma frame_set_property self prop_id value :
  preserves frame (presence_widget_set_property self prop_id value).
Proof.
  unfold presence_widget_set_property, g_value_dup_object. frame_auto.
Qed.

#[local] Hint Resolve frame_enabled_toggled frame_emit_toggled
  frame_user_click frame_notify_display_name frame_notify_presence
  frame_notify_status_message frame_get_property_statuses
  frame_connection_ready frame_status_changed frame_account_removed
  frame_dispose frame_set_property : frame.

(** ** The invariant of the event loop *)

Lemma wf_empty : wf empty_world.
Proof.
  split; simpl.
  - intros self p H. rewrite lookup_empty in H. discriminate.
  - intros self p H. rewrite lookup_empty in H. discriminate.
  - intros self p H. rewrite lookup_empty in H. discriminate.
  - intros s1 s2 p1 p2 b H. rewrite lookup_empty in H. discriminate.
  - intros c H. inversion H.
  - intros c H. inversion H.
Qed.

Lemma frame_widget_back w w' self p' :
  frame w w' → widgets w' !! self = Some p' →
  ∃ p, widgets w !! self = Some p
       ∧ enabled_check p' = enabled_check p
       ∧ updating_ui_lock p' = updating_ui_lock p.
Proof.
  intros F Hp'. destruct (widgets w !! self) as [p|] eqn:Hp.
  - destruct (frame_widgets _ _ F self p Hp) as (q & Hq & Hc & Hl).
    exists p. split; [reflexivity|]. split; congruence.
  - rewrite (frame_no_widget _ _ F self Hp) in Hp'. discriminate.
Qed.

Lemma wf_frame w w' : wf w → frame w w' → wf w'.
Proof.
  intros W F. split.
  - intros self p' Hp'.
    destruct (frame_widget_back _ _ _ _ F Hp') as (p & Hp & _ & Hl).
    rewrite Hl. eapply wf_lock; eassumption.
  - intros self p' Hp'.
    destruct (frame_widget_back _ _ _ _ F Hp') as (p & Hp & _ & _).
    pose proof (wf_fresh _ W self p Hp). pose proof (frame_next _ _ F). lia.
  - intros self p' Hp'.
    destruct (frame_widget_back _ _ _ _ F Hp') as (p & Hp & Hc & _).
    destruct (wf_check _ W self p Hp) as (b & Hb & Ht & Hn).
    exists b. split; [congruence|]. split; [eapply frame_toggles; eassumption|].
    pose proof (frame_next _ _ F). lia.
  - intros s1 s2 q1 q2 b H1 H2 Hb1 Hb2.
    destruct (frame_widget_back _ _ _ _ F H1) as (p1 & Hp1 & Hc1 & _).
    destruct (frame_widget_back _ _ _ _ F H2) as (p2 & Hp2 & Hc2 & _).
    eapply (wf_check_inj _ W s1 s2 p1 p2 b); congruence.
  - intros c Hc Hs. rewrite (frame_signals _ _ F) in Hc.
    destruct (wf_toggled _ W c Hc Hs) as (Hh & p & Hp & Hb).
    split; [exact Hh|].
    destruct (frame_widgets _ _ F _ p Hp) as (p' & Hp' & Hc' & _).
    exists p'. split; [exact Hp'|congruence].
  - intros c Hc Hs. rewrite (frame_signals _ _ F) in Hc.
    exact (wf_removed _ W c Hc Hs).
Qed.

Lemma frame_invariant_wf {A} (m : M A) : preserves frame m → invariant wf m.
Proof. apply preserves_invariant. exact wf_frame. Qed.

Lemma GET_PRIVATE_Some self w p w' :
  GET_PRIVATE self w = Some (p, w') → widgets w !! self = Some p ∧ w' = w.
Proof.
  unfold_M. simpl.
  destruct (widgets w !! self) as [x|] eqn:E; simpl; [|discriminate].
  intros [= -> ->]. split; first [exact E | reflexivity].
Qed.

Lemma update_private_Some self f w u w' :
  update_private self f w = Some (u, w') →
  ∃ p, widgets w !! self = Some p ∧ w' = with_widgets <[self := f p]> w.
Proof.
  unfold_M. simpl.
  destruct (widgets w !! self) as [p|] eqn:E; simpl; [|discriminate].
  intros [= _ <-]. exists p. split; first [exact E | reflexivity].
Qed.

Lemma get_account_Some a w acc w' :
  get_account a w = Some (acc, w') →
  ∃ q, a = Some q ∧ accounts w !! q = Some acc ∧ w' = w.
Proof.
  unfold_M. destruct a as [q|]; simpl; [|discriminate].
  destruct (accounts w !! q) as [x|] eqn:E; simpl; [|discriminate].
  intros [= -> ->]. exists q. repeat split; first [exact E | reflexivity].
Qed.

Lemma wf_connect instance signal handler data :
  signal ≠ "toggled" →
  (signal = "removed" → handler = H_account_removed) →
  invariant wf (g_signal_connect_swapped instance signal handler data).
Proof.
  intros Hs Hr w u w' W. unfold g_signal_connect_swapped. unfold_M.
  destruct instance as [i|]; simpl; [|discriminate].
  intros [= _ <-]. destruct W as [W1 W2 W3 W4 W5 W6]. split; simpl; auto.
  - intros c [Hc|Hc]%elem_of_app Hc'; [auto|].
    apply list_elem_of_singleton in Hc. subst c. simpl in Hc'. congruence.
  - intros c [Hc|Hc]%elem_of_app Hc'; [auto|].
    apply list_elem_of_singleton in Hc. subst c. simpl in *. auto.
Qed.

(** The handlers that only copy a field into a widget log no call. *)
Ltac calls_auto :=
  preserves_auto; try (unfold same_calls; reflexivity).

Lemma calls_notify_display_name self pspec a :
  preserves same_calls (_notify_display_name self pspec a).
Proof.
  unfold _notify_display_name, tp_account_get_display_name,
    gtk_button_set_label, GET_PRIVATE, get_toggle, get_account.
  calls_auto.
Qed.

Lemma calls_notify_presence self pspec a :
  preserves same_calls (_notify_presence self pspec a).
Proof.
  unfold _notify_presence, tp_account_get_presence,
    gtk_image_set_from_icon_name, GET_PRIVATE, get_account.
  calls_auto.
Qed.

Lemma calls_notify_status_message self pspec a :
  preserves same_calls (_notify_status_message self pspec a).
Proof.
  unfold _notify_status_message, tp_account_get_status_message,
    tp_account_get_presence, gtk_label_set_text, GET_PRIVATE, get_account.
  calls_auto.
Qed.

Section Invariant.

Context (toggled_emissions : bool → bool → nat).

(** In a world between two events, a widget's check button has one
    "toggled" handler, the widget's own. *)
Lemma wf_own_handler w self p b c :
  wf w → widgets w !! self = Some p → enabled_check p = Some b →
  c ∈ signals w → sc_instance c = b → sc_signal c = "toggled" →
  sc_handler c = H_enabled_toggled ∧ sc_data c = self.
Proof.
  intros W Hp Hb Hc Hi Hs.
  destruct (wf_toggled _ W c Hc Hs) as (Hh & q & Hq & Hqb).
  split; [exact Hh|].
  eapply (wf_check_inj _ W); [exact Hq|exact Hp| |exact Hb]. congruence.
Qed.

(** Between two events, [_notify_enabled] either fails or changes the
    state of the widget's check button and nothing else. *)
Lemma notify_enabled_wf_exact self pspec a w x w' :
  wf w →
  _notify_enabled toggled_emissions self pspec a w = Some (x, w') →
  ∃ b v, w' = with_toggles <[b := v]> w.
Proof.
  intros W H. pose proof H as H0. unfold _notify_enabled in H0.
  apply bind_Some in H0 as (priv & w1 & [Hp ->]%GET_PRIVATE_Some & H0).
  apply bind_Some in H0 as (u & w2 & (p2 & Hp2 & ->)%update_private_Some & H0).
  apply bind_Some in H0 as (en & w3 & H3 & _).
  unfold tp_account_is_enabled in H3.
  apply bind_Some in H3 as (acc & w4 & (q & -> & Ha & ->)%get_account_Some & _).
  simpl in Ha.
  destruct (wf_check _ W self priv Hp) as (b & Hb & [t Ht] & _).
  assert (E : _notify_enabled toggled_emissions self pspec (Some q) w =
    Some (tt, with_toggles <[b := mkToggle (acc_enabled acc) (label t)]> w)).
  { apply notify_enabled_exact with (p := priv); try assumption.
    - rewrite (wf_lock _ W self priv Hp). lia.
    - intros c Hc Hi Hs. exact (wf_own_handler w self priv b c W Hp Hb Hc Hi Hs). }
  rewrite E in H. injection H as H. subst w'. eauto.
Qed.

Lemma wf_notify_enabled self pspec a :
  invariant wf (_notify_enabled toggled_emissions self pspec a).
Proof.
  intros w x w' W H.
  destruct (notify_enabled_wf_exact self pspec a w x w' W H) as (b & v & ->).
  eapply wf_frame; [exact W|]. apply frame_toggles_insert.
Qed.

Ltac wf_step :=
  match goal with
  | |- invariant wf (_ ≫= _) => apply invariant_bind; [|intros ?]
  | |- invariant wf (g_signal_connect_swapped _ _ _ _) =>
      apply wf_connect; [discriminate | intros E; first [discriminate E | reflexivity]]
  | |- invariant wf (_notify_enabled _ _ _ _) => apply wf_notify_enabled
  | |- invariant wf (if ?b then _ else _) => destruct b
  | |- invariant wf (match ?x with _ => _ end) => destruct x
  | |- invariant wf _ =>
      apply frame_invariant_wf;
      unfold tp_account_get_connection_status, TP_IS_ACCOUNT;
      solve [frame_auto]
  end.

Ltac wf_auto := repeat wf_step.

Lemma wf_run_account_handler a s c :
  invariant wf (run_account_handler toggled_emissions a s c).
Proof. unfold run_account_handler. wf_auto. Qed.

Lemma wf_emit_account_signal a s :
  invariant wf (emit_account_signal toggled_emissions a s).
Proof.
  unfold emit_account_signal. wf_auto.
  apply invariant_for_each. intros c _. apply wf_run_account_handler.
Qed.

Lemma wf_constructed self :
  invariant wf (presence_widget_constructed toggled_emissions self).
Proof. unfold presence_widget_constructed. wf_auto. Qed.

(** The instance initialiser, run on the zero-filled instance that GObject
    has just allocated, establishes the invariant for the new widget. *)
Lemma wf_init w u w1 :
  wf w →
  presence_widget_init (next w)
    (with_widgets <[next w := zeroed_private]> (with_next Pos.succ w))
  = Some (u, w1) →
  wf w1.
Proof.
  intros W H.
  unfold presence_widget_init, gtk_check_button_new, gtk_image_new,
    gtk_label_new, g_signal_connect_swapped in H.
  unfold_M.
  repeat first [progress simpl in H | progress rewrite ?lookup_insert_eq in H].
  rewrite !insert_insert_eq in H. injection H as H. subst w1.
  destruct W as [W1 W2 W3 W4 W5 W6].
  assert (Hnew : widgets w !! next w = None).
  { destruct (widgets w !! next w) as [p|] eqn:E; [|reflexivity].
    pose proof (W2 _ _ E). lia. }
  split; simpl.
  - intros self p [[<- <-]|[? Hp]]%lookup_insert_Some; [reflexivity|eauto].
  - intros self p [[<- <-]|[? Hp]]%lookup_insert_Some; [lia|].
    pose proof (W2 _ _ Hp). lia.
  - intros self p [[<- <-]|[? Hp]]%lookup_insert_Some.
    + exists (Pos.succ (next w)). split; [reflexivity|].
      rewrite lookup_insert_eq. split; [eauto|lia].
    + destruct (W3 _ _ Hp) as (b & Hb & Ht & Hn). exists b.
      split; [exact Hb|]. split; [|lia].
      rewrite lookup_insert_ne by lia. exact Ht.
  - intros s1 s2 p1 p2 b [[<- <-]|[? H1]]%lookup_insert_Some
      [[<- <-]|[? H2]]%lookup_insert_Some; intros Hb1 Hb2;
      unfold set_status_message, set_status_icon, set_enabled_check,
        zeroed_private in Hb1, Hb2; simpl in Hb1, Hb2.
    + reflexivity.
    + destruct (W3 _ _ H2) as (b' & Hb' & _ & Hn). simplify_eq. lia.
    + destruct (W3 _ _ H1) as (b' & Hb' & _ & Hn). simplify_eq. lia.
    + eapply W4; eassumption.
  - intros c [Hc|Hc]%elem_of_app Hs.
    + destruct (W5 c Hc Hs) as (Hh & p & Hp & Hb). split; [exact Hh|].
      exists p. split; [|exact Hb].
      rewrite lookup_insert_ne; [exact Hp|]. congruence.
    + apply list_elem_of_singleton in Hc. subst c. simpl. split; [reflexivity|].
      eexists. rewrite lookup_insert_eq. split; reflexivity.
  - intros c [Hc|Hc]%elem_of_app Hs; [auto|].
    apply list_elem_of_singleton in Hc. subst c. discriminate Hs.
Qed.

Lemma wf_g_object_new account :
  invariant wf (g_object_new toggled_emissions account).
Proof.
  intros w x w' W H. unfold g_object_new in H.
  apply bind_Some in H as (self & w1 & H1 & H).
  cbv [alloc gets modify mbind M_bind mret M_ret] in H1.
  simplify_eq.
  apply bind_Some in H as (u1 & w2 & H2 & H).
  cbv [modify] in H2. simplify_eq.
  apply bind_Some in H as (u2 & w3 & H3 & H).
  apply wf_init in H3; [|exact W].
  apply bind_Some in H as (u3 & w4 & H4 & H).
  apply (frame_invariant_wf _ (frame_set_property _ _ _)) in H4; [|exact H3].
  apply bind_Some in H as (u4 & w5 & H5 & H).
  apply wf_constructed in H5; [|exact H4].
  cbv [mret M_ret] in H. simplify_eq. exact H5.
Qed.

Lemma wf_handle e : invariant wf (handle toggled_emissions e).
Proof.
  destruct e; simpl; unfold presence_widget_new, pending, alloc.
  all: wf_auto.
  all: first [apply wf_g_object_new | apply wf_emit_account_signal].
Qed.

(** Every world the event loop can be in satisfies the invariant. *)
Theorem reachable_wf w : reachable toggled_emissions w → wf w.
Proof.
  induction 1 as [|w e w' _ IH Hstep]; [exact wf_empty|].
  unfold step in Hstep. apply exec_Some in Hstep as [x Hx].
  eapply wf_handle; eassumption.
Qed.

Lemma run_reachable es w w' :
  reachable toggled_emissions w →
  run toggled_emissions w es = Some w' →
  reachable toggled_emissions w'.
Proof.
  revert w. induction es as [|e es IH]; simpl; intros w Hw H.
  - injection H as <-. exact Hw.
  - destruct (step toggled_emissions w e) as [w1|] eqn:E; simpl in H;
      [|discriminate].
    eapply IH; [|exact H]. eapply reachable_step; eassumption.
Qed.

(** ** Seen from the account: whole signal emissions *)

(** A widget never answers a property notification with a request: in a
    world between two events, whenever an emission of any "notify::"
    signal of any account returns, whatever widgets are connected to it,
    the call log is as it was. *)
Theorem notify_signal_issues_no_request a prop w w' :
  reachable toggled_emissions w →
  emit_account_signal toggled_emissions a (Sig_notify prop) w = Some (tt, w') →
  calls w' = calls w.
Proof.
  intros Hr%reachable_wf H.
  assert (Hinv : ∀ c, invariant (λ w0, wf w0 ∧ calls w0 = calls w)
            (run_account_handler toggled_emissions a (Sig_notify prop) c)).
  { intros c w0 x w1 [W0 Hc0] Hrun. unfold run_account_handler in Hrun.
    case_bool_decide; [|cbv [mret M_ret] in Hrun; simplify_eq; split; assumption].
    destruct (sc_handler c); try discriminate.
    - split; [eapply wf_notify_enabled; eassumption|].
      destruct (notify_enabled_wf_exact _ _ _ _ _ _ W0 Hrun) as (b & v & ->).
      exact Hc0.
    - split; [eapply (frame_invariant_wf _ (frame_notify_display_name _ _ _));
              eassumption|].
      apply calls_notify_display_name in Hrun. unfold same_calls in Hrun.
      congruence.
    - split; [eapply (frame_invariant_wf _ (frame_notify_presence _ _ _));
              eassumption|].
      apply calls_notify_presence in Hrun. unfold same_calls in Hrun.
      congruence.
    - split; [eapply (frame_invariant_wf _ (frame_notify_status_message _ _ _));
              eassumption|].
      apply calls_notify_status_message in Hrun. unfold same_calls in Hrun.
      congruence. }
  unfold emit_account_signal in H.
  apply bind_Some in H as (l & w0 & Hl & H).
  cbv [gets] in Hl. injection Hl as <- <-.
  eapply (invariant_for_each (λ w0, wf w0 ∧ calls w0 = calls w)) in H.
  - apply H.
  - intros c _. apply Hinv.
  - split; [exact Hr|reflexivity].
Qed.

End Invariant.

(** * The concrete run *)

Lemma demo_world_reachable : reachable gtk2_emissions demo_world.
Proof.
  apply (run_reachable gtk2_emissions demo_events empty_world).
  - apply reachable_start.
  - vm_compute. reflexivity.
Qed.

Example demo_world_widget : widgets demo_world !! 3%positive = Some demo_private.
Proof. vm_compute. reflexivity. Qed.

(** After the connection has become ready, the log ends with the
    readiness request of the construction and the one [Get] of
    "Statuses" that answered it. *)
Example demo_world_probe_calls :
  drop 9 (calls demo_world_probe)
  = [ Call_tp_connection_call_when_ready 2%positive CB_connection_ready
        3%positive;
      Call_tp_cli_dbus_properties_call_get 2%positive
        TP_IFACE_CONNECTION_INTERFACE_SIMPLE_PRESENCE "Statuses"
        CB_get_property_statuses 3%positive ].
Proof. vm_compute. reflexivity. Qed.

Example demo_world_shows :
  toggles demo_world !! 4%positive = Some (mkToggle true (Some "Alice"))
  ∧ images demo_world !! 6%positive = Some (Some "empathy-away")
  ∧ labels demo_world !! 7%positive = Some "Away".
Proof. vm_compute. repeat split; reflexivity. Qed.

(** * The static tables *)

Lemma presence_icons_lookup (p : TpConnectionPresenceType) :
  ∃ icon, presence_icons !! presence_index p = Some (Some icon).
Proof. destruct p; eexists; reflexivity. Qed.

Lemma default_messages_lookup (p : TpConnectionPresenceType) :
  ∃ msg, default_messages !! presence_index p = Some (Some msg).
Proof. destruct p; eexists; reflexivity. Qed.

(** C6: for each of the nine presence types used as an index, the icon
    table and the default-message table both hold a string that is not
    [NULL]; both arrays have as many elements as there are presence
    types, so the index is always within bounds. *)
Theorem presence_tables_total (p : TpConnectionPresenceType) :
  presence_index p < NUM_TP_CONNECTION_PRESENCE_TYPES
  ∧ length presence_icons = NUM_TP_CONNECTION_PRESENCE_TYPES
  ∧ length default_messages = NUM_TP_CONNECTION_PRESENCE_TYPES
  ∧ (∃ icon, presence_icons !! presence_index p = Some (Some icon))
  ∧ (∃ msg, default_messages !! presence_index p = Some (Some msg)).
Proof.
  split; [destruct p; unfold NUM_TP_CONNECTION_PRESENCE_TYPES; simpl; lia|].
  split; [reflexivity|]. split; [reflexivity|].
  split; [apply presence_icons_lookup | apply default_messages_lookup].
Qed.

(** The enumeration is closed: these are its nine values, with distinct
    indices. *)
Lemma all_presence_types_complete (p : TpConnectionPresenceType) :
  all_presence_types !! presence_index p = Some p.
Proof. destruct p; reflexivity. Qed.

Lemma all_presence_types_length :
  length all_presence_types = NUM_TP_CONNECTION_PRESENCE_TYPES.
Proof. reflexivity. Qed.

Lemma presence_index_inj (p q : TpConnectionPresenceType) :
  presence_index p = presence_index q → p = q.
Proof.
  intros H. pose proof (all_presence_types_complete p) as Hp.
  rewrite H, all_presence_types_complete in Hp. congruence.
Qed.

(** * The field-sync handlers *)

(** C3: whatever the state of the account, [_notify_status_message]
    sets the label to the default message of the account's current
    presence when the account's status message is empty, and to the
    account's status message itself otherwise; nothing else changes. *)
Theorem notify_status_message_displays self pspec a p lbl old acc w :
  widgets w !! self = Some p →
  status_message p = Some lbl →
  labels w !! lbl = Some old →
  accounts w !! a = Some acc →
  ∃ shown,
    _notify_status_message self pspec (Some a) w
      = Some (tt, with_labels <[lbl := shown]> w)
    ∧ (acc_status_message acc = "" →
       default_messages !! presence_index (acc_presence acc) = Some (Some shown))
    ∧ (acc_status_message acc ≠ "" → shown = acc_status_message acc).
Proof.
  intros Hp Hl Ho Ha.
  unfold _notify_status_message, tp_account_get_status_message,
    tp_account_get_presence, gtk_label_set_text, strlen.
  destruct (acc_status_message acc) as [|ch rest] eqn:Emsg.
  - destruct (default_messages_lookup (acc_presence acc)) as [msg Hmsg].
    exists msg. split; [|split; [intros _; exact Hmsg | congruence]].
    run_M using (rewrite ?Hp, ?Ha, ?Hl, ?Ho, ?Emsg, ?Hmsg). reflexivity.
  - exists (String ch rest). split; [|split; [discriminate | reflexivity]].
    run_M using (rewrite ?Hp, ?Ha, ?Hl, ?Ho, ?Emsg). reflexivity.
Qed.

Lemma notify_status_message_displays_witness :
  widgets demo_world !! 3%positive = Some demo_private
  ∧ status_message demo_private = Some 7%positive
  ∧ labels demo_world !! 7%positive = Some "Away"
  ∧ accounts demo_world !! 1%positive = Some demo_account
  ∧ ∃ shown,
      _notify_status_message 3%positive None (Some 1%positive) demo_world
        = Some (tt, with_labels <[7%positive := shown]> demo_world)
      ∧ (acc_status_message demo_account = "" →
         default_messages !! presence_index (acc_presence demo_account)
           = Some (Some shown))
      ∧ (acc_status_message demo_account ≠ "" →
         shown = acc_status_message demo_account).
Proof.
  assert (H1 : widgets demo_world !! 3%positive = Some demo_private)
    by (vm_compute; reflexivity).
  assert (H2 : status_message demo_private = Some 7%positive)
    by reflexivity.
  assert (H3 : labels demo_world !! 7%positive = Some "Away")
    by (vm_compute; reflexivity).
  assert (H4 : accounts demo_world !! 1%positive = Some demo_account)
    by (vm_compute; reflexivity).
  repeat (split; [assumption|]).
  exact (notify_status_message_displays 3%positive None 1%positive
           demo_private 7%positive "Away" demo_account demo_world
           H1 H2 H3 H4).
Defined.

(** * The toggle handler *)

(** C2: a "toggled" event that finds the guard at zero appends exactly
    one [tp_account_set_enabled_async] call to the log, addressed to the
    widget's account and carrying the current state of the button; nothing
    else changes. *)
Theorem enabled_toggled_issues_request self button p t w :
  widgets w !! self = Some p →
  updating_ui_lock p = 0%Z →
  toggles w !! button = Some t →
  _enabled_toggled self button w
    = Some (tt, with_calls
                  (λ l, l ++ [Call_tp_account_set_enabled_async
                                (account p) (active t)])%list w).
Proof.
  intros Hp Hl Ht. unfold _enabled_toggled, gtk_toggle_button_get_active.
  run_M using (rewrite ?Hp, ?Hl, ?Ht). reflexivity.
Qed.

Lemma enabled_toggled_issues_request_witness :
  widgets demo_world !! 3%positive = Some demo_private
  ∧ updating_ui_lock demo_private = 0%Z
  ∧ toggles demo_world !! 4%positive = Some (mkToggle true (Some "Alice"))
  ∧ _enabled_toggled 3%positive 4%positive demo_world
      = Some (tt, with_calls
                    (λ l, l ++ [Call_tp_account_set_enabled_async
                                  (Some 1%positive) true])%list demo_world).
Proof.
  assert (H1 : widgets demo_world !! 3%positive = Some demo_private)
    by (vm_compute; reflexivity).
  assert (H2 : updating_ui_lock demo_private = 0%Z) by reflexivity.
  assert (H3 : toggles demo_world !! 4%positive
               = Some (mkToggle true (Some "Alice")))
    by (vm_compute; reflexivity).
  repeat (split; [assumption|]).
  exact (enabled_toggled_issues_request 3%positive 4%positive demo_private
           (mkToggle true (Some "Alice")) demo_world H1 H2 H3).
Defined.

(** * The connection-capability probe *)

(** C5: on "status-changed", if the account has no connection nothing
    happens; if it has one, the handler asks the connection to call
    [_connection_ready] when ready exactly when the new status is
    Connected or Disconnected, and does nothing otherwise. *)
Theorem status_changed_probe self old_status new_status reason a acc w :
  accounts w !! a = Some acc →
  (acc_connection acc = None →
     _status_changed self old_status new_status reason (Some a) w = Some (tt, w))
  ∧ (∀ c, acc_connection acc = Some c →
       (new_status = TP_CONNECTION_STATUS_CONNECTED
        ∨ new_status = TP_CONNECTION_STATUS_DISCONNECTED) →
       _status_changed self old_status new_status reason (Some a) w
         = Some (tt, with_calls
                       (λ l, l ++ [Call_tp_connection_call_when_ready
                                     c CB_connection_ready self])%list w))
  ∧ (∀ c, acc_connection acc = Some c →
       new_status ≠ TP_CONNECTION_STATUS_CONNECTED →
       new_status ≠ TP_CONNECTION_STATUS_DISCONNECTED →
       _status_changed self old_status new_status reason (Some a) w = Some (tt, w)).
Proof.
  intros Ha. unfold _status_changed, tp_account_get_connection.
  split; [|split].
  - intros Hc. run_M using (rewrite ?Ha, ?Hc). reflexivity.
  - intros c Hc Hn. run_M using (rewrite ?Ha, ?Hc).
    rewrite bool_decide_eq_true_2 by exact Hn. reflexivity.
  - intros c Hc Hn1 Hn2. run_M using (rewrite ?Ha, ?Hc).
    rewrite bool_decide_eq_false_2 by (intros [?|?]; contradiction).
    reflexivity.
Qed.

Lemma status_changed_probe_witness :
  accounts demo_world !! 1%positive = Some demo_account
  ∧ _status_changed 3%positive 1 TP_CONNECTION_STATUS_DISCONNECTED 0
      (Some 1%positive) demo_world
    = Some (tt, with_calls
                  (λ l, l ++ [Call_tp_connection_call_when_ready
                                2%positive CB_connection_ready 3%positive])%list
                  demo_world)
  ∧ _status_changed 3%positive 0 TP_CONNECTION_STATUS_CONNECTING 0
      (Some 1%positive) demo_world
    = Some (tt, demo_world).
Proof.
  assert (H1 : accounts demo_world !! 1%positive = Some demo_account)
    by (vm_compute; reflexivity).
  split; [exact H1|]. split.
  - apply (proj1 (proj2 (status_changed_probe 3%positive 1
             TP_CONNECTION_STATUS_DISCONNECTED 0 1%positive demo_account
             demo_world H1)) 2%positive).
    + reflexivity.
    + right. reflexivity.
  - apply (proj2 (proj2 (status_changed_probe 3%positive 0
             TP_CONNECTION_STATUS_CONNECTING 0 1%positive demo_account
             demo_world H1)) 2%positive).
    + reflexivity.
    + discriminate.
    + discriminate.
Defined.

(** * Construction *)

(** C7: [presence_widget_new (NULL)] returns [NULL]; it allocates
    nothing, creates no widget instance and no toolkit object, connects
    no signal and takes no reference: the world is as before but for the
    warning of the failed check. *)
Theorem presence_widget_new_null_refused te w :
  ∃ w',
    presence_widget_new te None w = Some (None, w')
    ∧ next w' = next w
    ∧ widgets w' = widgets w
    ∧ toggles w' = toggles w
    ∧ images w' = images w
    ∧ labels w' = labels w
    ∧ refs w' = refs w
    ∧ signals w' = signals w
    ∧ calls w' = (calls w ++ [Call_g_return_if_fail_warning
                                "TP_IS_ACCOUNT (account)"])%list.
Proof.
  eexists. split; [unfold presence_widget_new, TP_IS_ACCOUNT; reflexivity|].
  repeat split.
Qed.

(** A pointer that is not an account is refused in the same way. *)
Lemma presence_widget_new_not_account_refused te a w :
  accounts w !! a = None →
  presence_widget_new te (Some a) w
    = Some (None, with_calls
                    (λ l, l ++ [Call_g_return_if_fail_warning
                                  "TP_IS_ACCOUNT (account)"])%list w).
Proof.
  intros Ha. unfold presence_widget_new, TP_IS_ACCOUNT.
  run_M using (rewrite ?Ha). reflexivity.
Qed.

(** * Reference counts *)

Lemma g_unref_run q n w :
  refs w !! q = Some (S n) →
  ∃ w', g_unref (Some q) w = Some (tt, w')
        ∧ w' = with_refs (match n with O => delete q | S _ => <[q := n]> end) w
        ∧ ∀ r, refcount w' r = if decide (r = q) then n else refcount w r.
Proof.
  intros H. unfold g_unref. eexists. split; [|split; [reflexivity|]].
  - run_M using (rewrite ?H). destruct n; reflexivity.
  - intros r. unfold refcount. simpl. case_decide as E.
    + subst r. destruct n; [rewrite lookup_delete_eq|rewrite lookup_insert_eq];
        reflexivity.
    + destruct n; [rewrite lookup_delete_ne|rewrite lookup_insert_ne];
        congruence.
Qed.

Lemma g_ref_run q n w :
  refs w !! q = Some (S n) →
  g_ref (Some q) w = Some (q, with_refs <[q := S (S n)]> w).
Proof. intros H. unfold g_ref. run_M using (rewrite ?H). reflexivity. Qed.

(** * Teardown *)

(** C10: disposing of a widget that holds its account drops one
    reference on the account and stores [NULL] in [priv->account]; the
    other five fields of the private structure keep their values, no other
    reference count moves (so the cached status map, if any, keeps the
    reference the widget took on it), and the only call that leaves
    the component is the parent class's [dispose]. *)
Theorem dispose_releases_account_only self p a n w :
  widgets w !! self = Some p →
  account p = Some a →
  refs w !! a = Some (S n) →
  ∃ w' p',
    presence_widget_dispose self w = Some (tt, w')
    ∧ widgets w' = <[self := p']> (widgets w)
    ∧ account p' = None
    ∧ statuses p' = statuses p
    ∧ enabled_check p' = enabled_check p
    ∧ status_icon p' = status_icon p
    ∧ status_message p' = status_message p
    ∧ updating_ui_lock p' = updating_ui_lock p
    ∧ refcount w' a = n
    ∧ (∀ q, q ≠ a → refs w' !! q = refs w !! q)
    ∧ calls w' = (calls w ++ [Call_parent_dispose self])%list.
Proof.
  intros Hp Ha Hr.
  destruct (g_unref_run a n w Hr) as (w1 & Hrun & Hw1 & Hcount).
  exists (with_calls (λ l, l ++ [Call_parent_dispose self])%list
            (with_widgets <[self := set_account None p]> w1)).
  exists (set_account None p).
  split; [|subst w1; repeat split].
  - unfold presence_widget_dispose, g_object_unref.
    rewrite (bind_run _ _ w w p) by (run_M using (rewrite ?Hp); reflexivity).
    rewrite Ha. rewrite (bind_run _ _ _ _ _ Hrun).
    subst w1. run_M using (rewrite ?Hp). reflexivity.
  - unfold refcount. simpl.
    destruct n; [rewrite lookup_delete_eq|rewrite lookup_insert_eq]; reflexivity.
  - intros q Hq. simpl.
    destruct n; [rewrite lookup_delete_ne|rewrite lookup_insert_ne]; congruence.
Qed.

(** C4, as the code has it: with a connection and the new status
    Connected, [_status_changed] asks once to be called back when the
    connection is ready; when the connection is ready and has the
    simple-presence interface, [_connection_ready] issues exactly one
    [Get] of "Statuses"; when the reply carries no error and its value
    holds a status map, the widget drops its reference on the map it had
    cached (once, and only if it had one), takes a reference on the new
    map and caches it, and no reference is dropped on a freed object;
    when the reply carries no error but a value of another type, the
    cache is left as it was and the failed check is logged; when the
    reply carries an error, the cache and everything else are left as
    they were and the error message is logged. *)
Theorem statuses_probe self p conn w :
  widgets w !! self = Some p →
  (∀ a acc old_status reason,
     accounts w !! a = Some acc → acc_connection acc = Some conn →
     _status_changed self old_status TP_CONNECTION_STATUS_CONNECTED reason
       (Some a) w
     = Some (tt, with_calls
                   (λ l, l ++ [Call_tp_connection_call_when_ready
                                 conn CB_connection_ready self])%list w))
  ∧ (∀ ifaces : gset string,
       connections w !! conn = Some ifaces →
       TP_IFACE_CONNECTION_INTERFACE_SIMPLE_PRESENCE ∈ ifaces →
       _connection_ready conn None self w
       = Some (tt, with_calls
                     (λ l, l ++ [Call_tp_cli_dbus_properties_call_get conn
                                   TP_IFACE_CONNECTION_INTERFACE_SIMPLE_PRESENCE
                                   "Statuses" CB_get_property_statuses self])%list
                     w))
  ∧ (∀ h n,
       refs w !! h = Some (S n) →
       (∀ old, statuses p = Some old →
          ∃ m, refs w !! old = Some (S m) ∧ (old = h → (1 ≤ n)%nat)) →
       ∃ w',
         _get_property_statuses conn
           (Some (mkGValue TP_HASH_TYPE_SIMPLE_STATUS_SPEC_MAP (Some h)))
           None self w = Some (tt, w')
         ∧ widgets w' = <[self := set_statuses (Some h) p]> (widgets w)
         ∧ calls w' = calls w
         ∧ ∀ q, (refcount w' q + (if decide (statuses p = Some q) then 1 else 0)
                 = refcount w q + (if decide (q = h) then 1 else 0))%nat)
  ∧ (∀ value,
       G_VALUE_HOLDS value TP_HASH_TYPE_SIMPLE_STATUS_SPEC_MAP = false →
       _get_property_statuses conn value None self w
       = Some (tt, with_calls
                     (λ l, l ++ [Call_g_return_if_fail_warning
                       "G_VALUE_HOLDS (value, TP_HASH_TYPE_SIMPLE_STATUS_SPEC_MAP)"])%list
                     w))
  ∧ (∀ value e,
       _get_property_statuses conn value (Some e) self w
       = Some (tt, with_calls (λ l, l ++ [Call_g_warning (message e)])%list w)).
Proof.
  intros Hp. repeat split.
  - intros a acc old_status reason Ha Hc.
    unfold _status_changed, tp_account_get_connection.
    run_M using (rewrite ?Ha, ?Hc). reflexivity.
  - intros ifaces Hc Hi. unfold _connection_ready, tp_proxy_has_interface.
    run_M using (rewrite ?Hp, ?Hc).
    rewrite bool_decide_eq_true_2 by exact Hi. reflexivity.
  - intros h n Hh Hold.
    unfold _get_property_statuses, g_hash_table_unref, g_hash_table_ref,
      g_value_get_boxed.
    rewrite (bind_run _ _ w w p) by (run_M using (rewrite ?Hp); reflexivity).
    change (G_VALUE_HOLDS (Some _) _) with true. cbv iota.
    destruct (statuses p) as [old|] eqn:Es.
    + destruct (Hold old eq_refl) as (m & Hm & Hsame).
      destruct (g_unref_run old m w Hm) as (w1 & Hrun & Hw1 & Hcount).
      rewrite (bind_run _ _ _ _ _ Hrun).
      assert (Hh1 : ∃ k, refs w1 !! h = Some (S k) ∧ refcount w1 h = S k).
      { destruct (decide (old = h)) as [->|Hne].
        - assert (m = n) by congruence. subst m.
          destruct n as [|k]; [specialize (Hsame eq_refl); lia|].
          exists k. subst w1. simpl. rewrite lookup_insert_eq.
          split; [reflexivity|]. unfold refcount. simpl.
          rewrite lookup_insert_eq. reflexivity.
        - exists n. subst w1. unfold refcount. simpl.
          destruct m; [rewrite lookup_delete_ne by done
                      |rewrite lookup_insert_ne by done];
            rewrite Hh; split; reflexivity. }
      destruct Hh1 as (k & Hk & Hck).
      rewrite (bind_run _ _ w1 w1 (Some h)) by reflexivity.
      rewrite (bind_run _ _ _ _ _ (g_ref_run h k w1 Hk)).
      assert (Hp1 : widgets w1 !! self = Some p) by (subst w1; exact Hp).
      eexists. split; [run_M using (rewrite ?Hp1); reflexivity|].
      split; [subst w1; reflexivity|]. split; [subst w1; reflexivity|].
      intros q. unfold refcount at 1. simpl. specialize (Hcount q).
      destruct (decide (q = h)) as [->|Hqh].
      * rewrite lookup_insert_eq. simpl. rewrite Hck in Hcount.
        repeat case_decide; simplify_eq; unfold refcount in *;
          rewrite ?Hh, ?Hm in *; simpl in *; lia.
      * rewrite lookup_insert_ne by done. fold (refcount w1 q).
        repeat case_decide; simplify_eq; unfold refcount in *;
          rewrite ?Hh, ?Hm in *; simpl in *; lia.
    + rewrite (bind_run _ _ w w tt) by reflexivity.
      rewrite (bind_run _ _ w w (Some h)) by reflexivity.
      rewrite (bind_run _ _ _ _ _ (g_ref_run h n w Hh)).
      eexists. split; [run_M using (rewrite ?Hp); reflexivity|].
      split; [reflexivity|]. split; [reflexivity|].
      intros q. unfold refcount. simpl.
      destruct (decide (q = h)) as [->|Hqh].
      * rewrite lookup_insert_eq, Hh. simpl.
        repeat case_decide; try discriminate; lia.
      * rewrite lookup_insert_ne by done.
        repeat case_decide; try discriminate; lia.
  - intros value Hv. unfold _get_property_statuses.
    run_M using (rewrite ?Hp, ?Hv). reflexivity.
  - intros value e. unfold _get_property_statuses.
    run_M using (rewrite ?Hp). reflexivity.
Qed.

Example demo_world_cached_widget :
  widgets demo_world_cached !! 3%positive = Some demo_private_cached
  ∧ map_to_list (refs demo_world_cached)
    = [(9%positive, 1); (8%positive, 2); (2%positive, 1); (1%positive, 2)].
Proof. vm_compute. split; reflexivity. Qed.

Lemma statuses_probe_witness :
  widgets demo_world_cached !! 3%positive = Some demo_private_cached
  ∧ refs demo_world_cached !! 9%positive = Some 1
  ∧ refs demo_world_cached !! 8%positive = Some 2
  ∧ ∃ w',
      _get_property_statuses 2%positive
        (Some (mkGValue TP_HASH_TYPE_SIMPLE_STATUS_SPEC_MAP (Some 9%positive)))
        None 3%positive demo_world_cached = Some (tt, w')
      ∧ widgets w' = <[3%positive := set_statuses (Some 9%positive)
                                       demo_private_cached]>
                       (widgets demo_world_cached)
      ∧ calls w' = calls demo_world_cached
      ∧ ∀ q, (refcount w' q
              + (if decide (statuses demo_private_cached = Some q) then 1 else 0)
              = refcount demo_world_cached q
                + (if decide (q = 9%positive) then 1 else 0))%nat.
Proof.
  assert (H1 : widgets demo_world_cached !! 3%positive
               = Some demo_private_cached) by (vm_compute; reflexivity).
  assert (H2 : refs demo_world_cached !! 9%positive = Some 1)
    by (vm_compute; reflexivity).
  assert (H3 : refs demo_world_cached !! 8%positive = Some 2)
    by (vm_compute; reflexivity).
  repeat (split; [assumption|]).
  apply (proj1 (proj2 (proj2
           (statuses_probe 3%positive demo_private_cached 2%positive
              demo_world_cached H1))) 9%positive 0 H2).
  intros old Hold. exists 1. injection Hold as <-.
  split; [exact H3|]. discriminate.
Defined.

(** C4, as the specification has it, fails where the reply carries no
    error but a value that is not a status map (here a string): the fetch
    has succeeded, yet the widget keeps the map it had cached (address 8),
    with the reference it holds on it, and caches nothing new. *)
Lemma statuses_fetch_of_other_type_keeps_cache :
  ∃ w',
    _get_property_statuses 2%positive
      (Some (mkGValue G_TYPE_STRING (Some 9%positive))) None 3%positive
      demo_world_cached
    = Some (tt, w')
    ∧ widgets w' !! 3%positive = Some demo_private_cached
    ∧ statuses demo_private_cached = Some 8%positive
    ∧ statuses demo_private_cached ≠ Some 9%positive
    ∧ refs w' = refs demo_world_cached.
Proof.
  exists (with_calls
            (λ l, l ++ [Call_g_return_if_fail_warning
               "G_VALUE_HOLDS (value, TP_HASH_TYPE_SIMPLE_STATUS_SPEC_MAP)"])%list
            demo_world_cached).
  split; [vm_compute; reflexivity|].
  split; [vm_compute; reflexivity|].
  split; [reflexivity|]. split; [discriminate|reflexivity].
Qed.

Lemma dispose_releases_account_only_witness :
  widgets demo_world_cached !! 3%positive = Some demo_private_cached
  ∧ account demo_private_cached = Some 1%positive
  ∧ refs demo_world_cached !! 1%positive = Some 2
  ∧ ∃ w' p',
      presence_widget_dispose 3%positive demo_world_cached = Some (tt, w')
      ∧ widgets w' = <[3%positive := p']> (widgets demo_world_cached)
      ∧ account p' = None
      ∧ statuses p' = Some 8%positive
      ∧ refcount w' 1%positive = 1
      ∧ refs w' !! 8%positive = refs demo_world_cached !! 8%positive.
Proof.
  assert (H1 : widgets demo_world_cached !! 3%positive
               = Some demo_private_cached) by (vm_compute; reflexivity).
  assert (H2 : account demo_private_cached = Some 1%positive) by reflexivity.
  assert (H3 : refs demo_world_cached !! 1%positive = Some 2)
    by (vm_compute; reflexivity).
  repeat (split; [assumption|]).
  destruct (dispose_releases_account_only 3%positive demo_private_cached
              1%positive 1 demo_world_cached H1 H2 H3)
    as (w' & p' & Hrun & Hw & Ha & Hs & _ & _ & _ & _ & Hc & Hother & _).
  exists w', p'. repeat split; try assumption.
  apply Hother. discriminate.
Defined.

(** * Removal *)

Lemma dispose_run self p a n w :
  widgets w !! self = Some p →
  account p = Some a →
  refs w !! a = Some (S n) →
  presence_widget_dispose self w
  = Some (tt, with_calls (λ l, l ++ [Call_parent_dispose self])%list
                (with_widgets <[self := set_account None p]>
                   (with_refs (match n with
                               | O => delete a
                               | S _ => <[a := n]>
                               end) w))).
Proof.
  intros Hp Ha Hr.
  destruct (g_unref_run a n w Hr) as (w1 & Hrun & Hw1 & _).
  unfold presence_widget_dispose, g_object_unref.
  rewrite (bind_run _ _ w w p) by (run_M using (rewrite ?Hp); reflexivity).
  rewrite Ha. rewrite (bind_run _ _ _ _ _ Hrun).
  subst w1. run_M using (rewrite ?Hp). reflexivity.
Qed.







(** * The account store is read-only for the handlers *)

Ltac accounts_auto :=
  preserves_auto; try (unfold same_accounts; reflexivity).

Lemma accounts_connect instance signal handler data :
  preserves same_accounts (g_signal_connect_swapped instance signal handler data).
Proof. unfold g_signal_connect_swapped. accounts_auto. Qed.

Lemma accounts_enabled_toggled self button :
  preserves same_accounts (_enabled_toggled self button).
Proof.
  unfold _enabled_toggled, gtk_toggle_button_get_active, GET_PRIVATE,
    get_toggle, call.
  accounts_auto.
Qed.

Lemma accounts_deliver_toggled n button :
  preserves same_accounts (deliver_toggled n button).
Proof.
  induction n as [|n IH]; simpl; [accounts_auto|].
  unfold emit_toggled. accounts_auto; [|exact IH].
  unfold run_toggled_handler. accounts_auto. apply accounts_enabled_toggled.
Qed.

Lemma accounts_notify_enabled te self pspec a :
  preserves same_accounts (_notify_enabled te self pspec a).
Proof.
  unfold _notify_enabled, tp_account_is_enabled, gtk_toggle_button_set_active,
    GET_PRIVATE, get_toggle, get_account.
  accounts_auto. apply accounts_deliver_toggled.
Qed.

Lemma accounts_notify_display_name self pspec a :
  preserves same_accounts (_notify_display_name self pspec a).
Proof.
  unfold _notify_display_name, tp_account_get_display_name,
    gtk_button_set_label, GET_PRIVATE, get_toggle, get_account.
  accounts_auto.
Qed.

Lemma accounts_notify_presence self pspec a :
  preserves same_accounts (_notify_presence self pspec a).
Proof.
  unfold _notify_presence, tp_account_get_presence,
    gtk_image_set_from_icon_name, GET_PRIVATE, get_account.
  accounts_auto.
Qed.

Lemma accounts_notify_status_message self pspec a :
  preserves same_accounts (_notify_status_message self pspec a).
Proof.
  unfold _notify_status_message, tp_account_get_status_message,
    tp_account_get_presence, gtk_label_set_text, GET_PRIVATE, get_account.
  accounts_auto.
Qed.

(** Two continuations that agree on every world related to [w0] can be
    exchanged after a computation that keeps the relation. *)
Lemma bind_ext_on (R : relation World) `{!PreOrder R} {A B}
    (m : M A) (f g : A → M B) (w0 w : World) :
  R w0 w → preserves R m →
  (∀ x w1, R w0 w1 → f x w1 = g x w1) →
  (m ≫= f) w = (m ≫= g) w.
Proof.
  intros HR Hm Hfg. unfold mbind, M_bind.
  destruct (m w) as [[x w1]|] eqn:E; [|reflexivity].
  apply Hfg. transitivity w; [exact HR | eapply Hm, E].
Qed.

(** Running a list of computations and then [k] is running them nested,
    as a C block has them. *)
Lemma for_each_id_then {B} (l : list (M unit)) (k : M B) (w : World) :
  (for_each id l ≫= λ _, k) w = foldr (λ m r, m ≫= λ _, r) k l w.
Proof.
  revert w. induction l as [|m l IH]; intros w; simpl; [reflexivity|].
  unfold mbind, M_bind in *. unfold id at 1.
  destruct (m w) as [[[] w1]|]; [apply IH|reflexivity].
Qed.

Lemma accounts_priming te self a m :
  m ∈ priming te self a → preserves same_accounts m.
Proof.
  unfold priming. intros H. repeat (apply elem_of_cons in H as [->|H]).
  all: try apply accounts_connect.
  - apply accounts_notify_enabled.
  - apply accounts_notify_display_name.
  - apply accounts_notify_presence.
  - apply accounts_notify_status_message.
  - inversion H.
Qed.

(** C9: on a widget bound to an account, [constructed] is the six
    signal connections and the four field-sync handlers, once each, then
    one call of [_status_changed] with old status 0, reason 0 and, as new
    status, the connection status of the account.  So when the account
    has a connection and that status is Connected or Disconnected, a
    construction that returns has, as its last step, asked to be called
    back when the connection is ready, although no status transition took
    place. *)
Theorem constructed_primes_then_probes te self p a acc w :
  widgets w !! self = Some p →
  account p = Some a →
  accounts w !! a = Some acc →
  presence_widget_constructed te self w
  = (for_each id (priming te self a) ;;
     _status_changed self 0 (acc_connection_status acc) 0 (Some a)) w
  ∧ ∀ c w',
      acc_connection acc = Some c →
      (acc_connection_status acc = TP_CONNECTION_STATUS_CONNECTED
       ∨ acc_connection_status acc = TP_CONNECTION_STATUS_DISCONNECTED) →
      presence_widget_constructed te self w = Some (tt, w') →
      ∃ w5, for_each id (priming te self a) w = Some (tt, w5)
            ∧ w' = with_calls
                     (λ l, l ++ [Call_tp_connection_call_when_ready
                                   c CB_connection_ready self])%list w5.
Proof.
  intros Hp Hacc Ha.
  assert (Hprim : preserves same_accounts (for_each id (priming te self a))).
  { apply preserves_for_each; [apply _|]. intros m Hm. unfold id.
    eapply accounts_priming. exact Hm. }
  assert (Hc : presence_widget_constructed te self w
    = (for_each id (priming te self a) ;;
       _status_changed self 0 (acc_connection_status acc) 0 (Some a)) w).
  { transitivity
      ((for_each id (priming te self a) ;;
        status ← tp_account_get_connection_status (Some a);
        _status_changed self 0 status 0 (Some a)) w).
    - rewrite for_each_id_then. unfold presence_widget_constructed.
      rewrite (bind_run _ _ w w p) by (run_M using (rewrite ?Hp); reflexivity).
      rewrite Hacc. reflexivity.
    - apply (bind_ext_on same_accounts _ _ _ w w); [reflexivity|exact Hprim|].
      intros _ w1 H1. unfold tp_account_get_connection_status.
      unfold same_accounts in H1. run_M using (rewrite ?H1, ?Ha). reflexivity. }
  split; [exact Hc|].
  intros c w' Hconn Hst Hrun. rewrite Hc in Hrun.
  apply bind_Some in Hrun as ([] & w5 & H5 & Hrun).
  exists w5. split; [exact H5|].
  apply Hprim in H5. unfold same_accounts in H5.
  unfold _status_changed, tp_account_get_connection in Hrun. unfold_M.
  repeat first [ progress simpl in Hrun
               | progress rewrite ?H5, ?Ha, ?Hconn in Hrun ].
  rewrite bool_decide_eq_true_2 in Hrun by exact Hst.
  simpl in Hrun. injection Hrun as Hrun. rewrite <- Hrun. reflexivity.
Qed.

Lemma constructed_primes_then_probes_witness :
  widgets demo_world_initialised !! 3%positive = Some demo_private
  ∧ account demo_private = Some 1%positive
  ∧ accounts demo_world_initialised !! 1%positive = Some demo_account
  ∧ presence_widget_constructed gtk2_emissions 3%positive demo_world_initialised
    = Some (tt, demo_world)
  ∧ ∃ w5, for_each id (priming gtk2_emissions 3%positive 1%positive)
            demo_world_initialised = Some (tt, w5)
          ∧ demo_world
            = with_calls
                (λ l, l ++ [Call_tp_connection_call_when_ready
                              2%positive CB_connection_ready 3%positive])%list
                w5.
Proof.
  assert (H1 : widgets demo_world_initialised !! 3%positive = Some demo_private)
    by (vm_compute; reflexivity).
  assert (H2 : account demo_private = Some 1%positive) by reflexivity.
  assert (H3 : accounts demo_world_initialised !! 1%positive
               = Some demo_account) by (vm_compute; reflexivity).
  assert (H4 : presence_widget_constructed gtk2_emissions 3%positive
                 demo_world_initialised = Some (tt, demo_world))
    by (vm_compute; reflexivity).
  repeat (split; [assumption|]).
  apply (proj2 (constructed_primes_then_probes gtk2_emissions 3%positive
                  demo_private 1%positive demo_account demo_world_initialised
                  H1 H2 H3) 2%positive demo_world).
  - reflexivity.
  - left. reflexivity.
  - exact H4.
Defined.

(** * The re-entrancy guard *)

(** With the guard of [self] raised and no foreign handler on its check
    button, any number of "toggled" emissions leave the world as it
    is. *)
Lemma deliver_toggled_guarded k b self q w :
  widgets w !! self = Some q →
  (updating_ui_lock q > 0)%Z →
  (∀ c, c ∈ signals w → sc_instance c = b → sc_signal c = "toggled" →
     sc_handler c = H_enabled_toggled ∧ sc_data c = self) →
  deliver_toggled k b w = Some (tt, w).
Proof.
  intros Hq Hl Hsig. apply deliver_toggled_idle, emit_toggled_suppressed.
  intros c Hc Hi Hs. destruct (Hsig c Hc Hi Hs) as [Hh ->].
  split; [exact Hh|]. exists q. split; assumption.
Qed.

(** C1: take any world the event loop can be in, any widget in it and
    any account.  [_notify_enabled] first raises the guard of the widget
    to 1; the write into the check button then stores the account's value
    and delivers "toggled" some number of times, and after the store and
    after each delivery the guard is still positive and the call log is
    what it was when the handler was entered, so every delivery is
    suppressed; the handler returns with the guard back at its value and
    the call log unchanged: no [tp_account_set_enabled_async] results
    from the update. *)
Theorem notify_enabled_guarded te w self p a acc pspec :
  reachable te w →
  widgets w !! self = Some p →
  accounts w !! a = Some acc →
  ∃ b t w_locked,
    enabled_check p = Some b
    ∧ toggles w !! b = Some t
    ∧ update_private self
        (λ q, set_updating_ui_lock (wrap_gint (updating_ui_lock q + 1)) q) w
      = Some (tt, w_locked)
    ∧ (∃ q, widgets w_locked !! self = Some q ∧ updating_ui_lock q = 1%Z)
    ∧ gtk_toggle_button_set_active te (enabled_check p) (acc_enabled acc) w_locked
      = (modify (with_toggles <[b := mkToggle (acc_enabled acc) (label t)]>) ;;
         deliver_toggled (te (active t) (acc_enabled acc)) b) w_locked
    ∧ (∀ k, ∃ w_k q,
         (modify (with_toggles <[b := mkToggle (acc_enabled acc) (label t)]>) ;;
          deliver_toggled k b) w_locked = Some (tt, w_k)
         ∧ widgets w_k !! self = Some q
         ∧ (updating_ui_lock q > 0)%Z
         ∧ calls w_k = calls w)
    ∧ ∃ w', _notify_enabled te self pspec (Some a) w = Some (tt, w')
            ∧ calls w' = calls w
            ∧ widgets w' = widgets w.
Proof.
  intros Hr Hp Ha. apply reachable_wf in Hr.
  destruct (wf_check _ Hr self p Hp) as (b & Hb & [t Ht] & _).
  pose proof (wf_lock _ Hr self p Hp) as Hl.
  exists b, t,
    (with_widgets <[self := set_updating_ui_lock 1 p]> w).
  split; [exact Hb|]. split; [exact Ht|]. split; [|split; [|split; [|split]]].
  - run_M using (rewrite ?Hp, ?Hl). reflexivity.
  - exists (set_updating_ui_lock 1 p). split; [apply lookup_insert_eq|reflexivity].
  - unfold gtk_toggle_button_set_active.
    run_M using (rewrite ?Hb, ?Ht). reflexivity.
  - intros k.
    exists (with_toggles <[b := mkToggle (acc_enabled acc) (label t)]>
              (with_widgets <[self := set_updating_ui_lock 1 p]> w)).
    exists (set_updating_ui_lock 1 p).
    split; [|split; [apply lookup_insert_eq|split; [simpl; lia|reflexivity]]].
    rewrite (bind_run _ _ _ _ tt eq_refl).
    apply (deliver_toggled_guarded k b self (set_updating_ui_lock 1 p)).
    + apply lookup_insert_eq.
    + simpl. lia.
    + intros c Hc Hi Hs. exact (wf_own_handler w self p b c Hr Hp Hb Hc Hi Hs).
  - exists (with_toggles <[b := mkToggle (acc_enabled acc) (label t)]> w).
    split; [|split; reflexivity].
    apply notify_enabled_exact with (p := p); try assumption.
    + rewrite Hl. lia.
    + intros c Hc Hi Hs. exact (wf_own_handler w self p b c Hr Hp Hb Hc Hi Hs).
Qed.

Lemma notify_enabled_guarded_witness :
  reachable gtk2_emissions demo_world_disabled
  ∧ widgets demo_world_disabled !! 3%positive = Some demo_private
  ∧ accounts demo_world_disabled !! 1%positive = Some demo_account_disabled
  ∧ toggles demo_world_disabled !! 4%positive
    = Some (mkToggle true (Some "Alice"))
  ∧ gtk2_emissions true (acc_enabled demo_account_disabled) = 1
  ∧ ∃ w', _notify_enabled gtk2_emissions 3%positive (Some "enabled")
            (Some 1%positive) demo_world_disabled = Some (tt, w')
          ∧ calls w' = calls demo_world_disabled
          ∧ widgets w' = widgets demo_world_disabled.
Proof.
  assert (H1 : reachable gtk2_emissions demo_world_disabled).
  { apply (run_reachable gtk2_emissions demo_events_disabled empty_world).
    - apply reachable_start.
    - vm_compute. reflexivity. }
  assert (H2 : widgets demo_world_disabled !! 3%positive = Some demo_private)
    by (vm_compute; reflexivity).
  assert (H3 : accounts demo_world_disabled !! 1%positive
               = Some demo_account_disabled) by (vm_compute; reflexivity).
  assert (H4 : toggles demo_world_disabled !! 4%positive
               = Some (mkToggle true (Some "Alice")))
    by (vm_compute; reflexivity).
  repeat (split; [first [assumption | reflexivity]|]).
  destruct (notify_enabled_guarded gtk2_emissions demo_world_disabled
              3%positive demo_private 1%positive demo_account_disabled
              (Some "enabled") H1 H2 H3)
    as (b & t & w_locked & _ & _ & _ & _ & _ & _ & Hrun).
  exact Hrun.
Defined.

(** * The other field-sync handlers *)

(** X1: [_notify_display_name] makes the account's display name the
    label of the widget's check button, verbatim (an empty name is shown
    as an empty label: there is no default as for the status message);
    the button keeps its state, so no "toggled" is emitted, and nothing
    else changes. *)
Theorem notify_display_name_sets_label self pspec a p b t acc w :
  widgets w !! self = Some p →
  enabled_check p = Some b →
  toggles w !! b = Some t →
  accounts w !! a = Some acc →
  _notify_display_name self pspec (Some a) w
  = Some (tt, with_toggles
                <[b := mkToggle (active t) (Some (acc_display_name acc))]> w).
Proof.
  intros Hp Hb Ht Ha.
  unfold _notify_display_name, tp_account_get_display_name,
    gtk_button_set_label.
  run_M using (rewrite ?Hp, ?Ha, ?Hb, ?Ht). reflexivity.
Qed.

Lemma notify_display_name_sets_label_witness :
  widgets demo_world_disabled !! 3%positive = Some demo_private
  ∧ enabled_check demo_private = Some 4%positive
  ∧ toggles demo_world_disabled !! 4%positive
    = Some (mkToggle true (Some "Alice"))
  ∧ accounts demo_world_disabled !! 1%positive = Some demo_account_disabled
  ∧ _notify_display_name 3%positive None (Some 1%positive) demo_world_disabled
    = Some (tt, with_toggles <[4%positive := mkToggle true (Some "Alice")]>
                  demo_world_disabled).
Proof.
  assert (H1 : widgets demo_world_disabled !! 3%positive = Some demo_private)
    by (vm_compute; reflexivity).
  assert (H2 : enabled_check demo_private = Some 4%positive) by reflexivity.
  assert (H3 : toggles demo_world_disabled !! 4%positive
               = Some (mkToggle true (Some "Alice")))
    by (vm_compute; reflexivity).
  assert (H4 : accounts demo_world_disabled !! 1%positive
               = Some demo_account_disabled) by (vm_compute; reflexivity).
  repeat (split; [assumption|]).
  exact (notify_display_name_sets_label 3%positive None 1%positive
           demo_private 4%positive (mkToggle true (Some "Alice"))
           demo_account_disabled demo_world_disabled H1 H2 H3 H4).
Defined.

(** X2: [_notify_presence] sets the widget's image to the icon that the
    table holds for the account's presence, which is never [NULL];
    nothing else changes. *)
Theorem notify_presence_sets_icon self pspec a p i old acc w :
  widgets w !! self = Some p →
  status_icon p = Some i →
  images w !! i = Some old →
  accounts w !! a = Some acc →
  ∃ icon,
    presence_icons !! presence_index (acc_presence acc) = Some (Some icon)
    ∧ _notify_presence self pspec (Some a) w
      = Some (tt, with_images <[i := Some icon]> w).
Proof.
  intros Hp Hi Ho Ha.
  destruct (presence_icons_lookup (acc_presence acc)) as [icon Hicon].
  exists icon. split; [exact Hicon|].
  unfold _notify_presence, tp_account_get_presence,
    gtk_image_set_from_icon_name.
  run_M using (rewrite ?Hp, ?Ha, ?Hi, ?Ho, ?Hicon). reflexivity.
Qed.

Lemma notify_presence_sets_icon_witness :
  widgets demo_world !! 3%positive = Some demo_private
  ∧ status_icon demo_private = Some 6%positive
  ∧ images demo_world !! 6%positive = Some (Some "empathy-away")
  ∧ accounts demo_world !! 1%positive = Some demo_account
  ∧ ∃ icon,
      presence_icons !! presence_index (acc_presence demo_account)
        = Some (Some icon)
      ∧ _notify_presence 3%positive None (Some 1%positive) demo_world
        = Some (tt, with_images <[6%positive := Some icon]> demo_world).
Proof.
  assert (H1 : widgets demo_world !! 3%positive = Some demo_private)
    by (vm_compute; reflexivity).
  assert (H2 : status_icon demo_private = Some 6%positive) by reflexivity.
  assert (H3 : images demo_world !! 6%positive = Some (Some "empathy-away"))
    by (vm_compute; reflexivity).
  assert (H4 : accounts demo_world !! 1%positive = Some demo_account)
    by (vm_compute; reflexivity).
  repeat (split; [assumption|]).
  exact (notify_presence_sets_icon 3%positive None 1%positive demo_private
           6%positive (Some "empathy-away") demo_account demo_world
           H1 H2 H3 H4).
Defined.

(** * What the tables tell apart *)

(** X3: the icon table does not tell all presences apart: two presence
    types have the same icon exactly when they are the same type or both
    are among Unset, Offline, Hidden, Unknown and Error, which all get
    the offline icon. *)
Theorem presence_icons_same_iff (p q : TpConnectionPresenceType) :
  presence_icons !! presence_index p = presence_icons !! presence_index q
  ↔ p = q ∨ (shown_offline p = true ∧ shown_offline q = true).
Proof.
  split.
  - destruct p, q; intros H; first [left; reflexivity | right; split; reflexivity
                                   | discriminate H].
  - intros [->|[Hp Hq]]; [reflexivity|].
    destruct p; try discriminate Hp; destruct q; try discriminate Hq;
      reflexivity.
Qed.

(** X4: the default-message table tells all presences apart: with an
    empty status message, the text of the label determines the
    presence. *)
Theorem default_messages_inj (p q : TpConnectionPresenceType) :
  default_messages !! presence_index p = default_messages !! presence_index q →
  p = q.
Proof. destruct p, q; intros H; first [reflexivity | discriminate H]. Qed.

Lemma default_messages_inj_witness :
  default_messages !! presence_index TP_CONNECTION_PRESENCE_TYPE_BUSY
  = default_messages !! presence_index TP_CONNECTION_PRESENCE_TYPE_BUSY
  ∧ TP_CONNECTION_PRESENCE_TYPE_BUSY = TP_CONNECTION_PRESENCE_TYPE_BUSY.
Proof.
  split; [reflexivity|].
  exact (default_messages_inj TP_CONNECTION_PRESENCE_TYPE_BUSY
           TP_CONNECTION_PRESENCE_TYPE_BUSY eq_refl).
Defined.

(** * When the probe stops short *)

(** X5: [_connection_ready] stops short in two cases.  When readiness
    failed, it logs the error message and requests nothing.  When the
    connection is ready but does not have the simple-presence interface,
    it does nothing at all.  In both cases the cached status map is
    untouched. *)
Theorem connection_ready_stops_short self p conn w :
  widgets w !! self = Some p →
  (∀ e, _connection_ready conn (Some e) self w
        = Some (tt, with_calls (λ l, l ++ [Call_g_warning (message e)])%list w))
  ∧ (∀ ifaces : gset string,
       connections w !! conn = Some ifaces →
       TP_IFACE_CONNECTION_INTERFACE_SIMPLE_PRESENCE ∉ ifaces →
       _connection_ready conn None self w = Some (tt, w)).
Proof.
  intros Hp. split.
  - intros e. unfold _connection_ready.
    run_M using (rewrite ?Hp). reflexivity.
  - intros ifaces Hc Hi. unfold _connection_ready, tp_proxy_has_interface.
    run_M using (rewrite ?Hp, ?Hc).
    rewrite bool_decide_eq_false_2 by exact Hi. reflexivity.
Qed.

Lemma connection_ready_stops_short_witness :
  widgets demo_world_plain !! 3%positive = Some demo_private
  ∧ connections demo_world_plain !! 8%positive = Some ∅
  ∧ _connection_ready 8%positive (Some (mkGError "no route")) 3%positive
      demo_world_plain
    = Some (tt, with_calls (λ l, l ++ [Call_g_warning "no route"])%list
                  demo_world_plain)
  ∧ _connection_ready 8%positive None 3%positive demo_world_plain
    = Some (tt, demo_world_plain).
Proof.
  assert (H1 : widgets demo_world_plain !! 3%positive = Some demo_private)
    by (vm_compute; reflexivity).
  assert (H2 : connections demo_world_plain !! 8%positive = Some ∅)
    by (vm_compute; reflexivity).
  repeat (split; [assumption|]).
  destruct (connection_ready_stops_short 3%positive demo_private 8%positive
              demo_world_plain H1) as [Herr Hnone].
  split; [exact (Herr (mkGError "no route"))|].
  apply (Hnone ∅ H2). apply not_elem_of_empty.
Defined.

(** * The account property *)

(** X6: setting the account property stores the account in the widget
    and takes exactly one reference on it, without dropping any reference
    (the property is set once, at construction); setting any other
    property id only logs a warning. *)
Theorem set_property_takes_reference self p a n ty w :
  widgets w !! self = Some p →
  refs w !! a = Some (S n) →
  presence_widget_set_property self PROP_ACCOUNT (mkGValue ty (Some a)) w
  = Some (tt, with_widgets <[self := set_account (Some a) p]>
                (with_refs <[a := S (S n)]> w))
  ∧ (∀ prop_id value,
       prop_id ≠ PROP_ACCOUNT →
       presence_widget_set_property self prop_id value w
       = Some (tt, with_calls
                     (λ l, l ++ [Call_warn_invalid_property_id self prop_id])%list
                     w)).
Proof.
  intros Hp Hr. split.
  - unfold presence_widget_set_property, g_value_dup_object, g_ref.
    run_M using (rewrite ?Hp, ?Hr). reflexivity.
  - intros prop_id value Hid. unfold presence_widget_set_property.
    run_M using (rewrite ?Hp).
    rewrite bool_decide_eq_false_2 by exact Hid. reflexivity.
Qed.

Lemma set_property_takes_reference_witness :
  widgets demo_world !! 3%positive = Some demo_private
  ∧ refs demo_world !! 1%positive = Some 2
  ∧ presence_widget_set_property 3%positive PROP_ACCOUNT
      (mkGValue TP_TYPE_ACCOUNT (Some 1%positive)) demo_world
    = Some (tt, with_widgets <[3%positive := set_account (Some 1%positive)
                                               demo_private]>
                  (with_refs <[1%positive := 3]> demo_world))
  ∧ presence_widget_set_property 3%positive 7
      (mkGValue G_TYPE_STRING None) demo_world
    = Some (tt, with_calls
                  (λ l, l ++ [Call_warn_invalid_property_id 3%positive 7])%list
                  demo_world).
Proof.
  assert (H1 : widgets demo_world !! 3%positive = Some demo_private)
    by (vm_compute; reflexivity).
  assert (H2 : refs demo_world !! 1%positive = Some 2)
    by (vm_compute; reflexivity).
  repeat (split; [assumption|]).
  destruct (set_property_takes_reference 3%positive demo_private 1%positive 1
              TP_TYPE_ACCOUNT demo_world H1 H2) as [Hset Hother].
  split; [exact Hset|]. apply Hother. discriminate.
Defined.

(** X7: reading the account property into an empty value yields the
    account the widget is bound to, with a reference of its own for the
    value (the count of the account goes up by one, nothing else
    changes); on a widget that has been disposed of it yields [NULL] and
    changes nothing; reading any other property id leaves the value as it
    was and logs a warning. *)
Theorem get_property_reads_account self p ty w :
  widgets w !! self = Some p →
  (∀ a n, account p = Some a → refs w !! a = Some (S n) →
     presence_widget_get_property self PROP_ACCOUNT (mkGValue ty None) w
     = Some (mkGValue ty (Some a), with_refs <[a := S (S n)]> w))
  ∧ (account p = None →
     presence_widget_get_property self PROP_ACCOUNT (mkGValue ty None) w
     = Some (mkGValue ty None, w))
  ∧ (∀ prop_id value,
       prop_id ≠ PROP_ACCOUNT →
       presence_widget_get_property self prop_id value w
       = Some (value, with_calls
                        (λ l, l ++ [Call_warn_invalid_property_id self prop_id])%list
                        w)).
Proof.
  intros Hp. split; [|split].
  - intros a n Ha Hr.
    unfold presence_widget_get_property, g_value_set_object, g_ref.
    run_M using (rewrite ?Hp, ?Ha, ?Hr). reflexivity.
  - intros Ha. unfold presence_widget_get_property, g_value_set_object.
    run_M using (rewrite ?Hp, ?Ha). reflexivity.
  - intros prop_id value Hid. unfold presence_widget_get_property.
    run_M using (rewrite ?Hp).
    rewrite bool_decide_eq_false_2 by exact Hid. reflexivity.
Qed.

Lemma get_property_reads_account_witness :
  widgets demo_world !! 3%positive = Some demo_private
  ∧ account demo_private = Some 1%positive
  ∧ refs demo_world !! 1%positive = Some 2
  ∧ presence_widget_get_property 3%positive PROP_ACCOUNT
      (mkGValue TP_TYPE_ACCOUNT None) demo_world
    = Some (mkGValue TP_TYPE_ACCOUNT (Some 1%positive),
            with_refs <[1%positive := 3]> demo_world)
  ∧ presence_widget_get_property 3%positive PROP_0
      (mkGValue G_TYPE_STRING None) demo_world
    = Some (mkGValue G_TYPE_STRING None,
            with_calls
              (λ l, l ++ [Call_warn_invalid_property_id 3%positive PROP_0])%list
              demo_world).
Proof.
  assert (H1 : widgets demo_world !! 3%positive = Some demo_private)
    by (vm_compute; reflexivity).
  assert (H2 : account demo_private = Some 1%positive) by reflexivity.
  assert (H3 : refs demo_world !! 1%positive = Some 2)
    by (vm_compute; reflexivity).
  repeat (split; [assumption|]).
  split.
  - destruct (get_property_reads_account 3%positive demo_private
                TP_TYPE_ACCOUNT demo_world H1) as (Hget & _ & _).
    exact (Hget 1%positive 1 H2 H3).
  - destruct (get_property_reads_account 3%positive demo_private
                G_TYPE_STRING demo_world H1) as (_ & _ & Hother).
    apply Hother. discriminate.
Defined.

(** X8: what is set is what is read back: after the account property
    of a widget has been set to a live account, reading it returns that
    account, and the account has gained two references, the widget's and
    the one of the value read. *)
Theorem get_property_after_set_property self p a n w :
  widgets w !! self = Some p →
  refs w !! a = Some (S n) →
  ∃ w',
    (presence_widget_set_property self PROP_ACCOUNT
       (mkGValue TP_TYPE_ACCOUNT (Some a)) ;;
     presence_widget_get_property self PROP_ACCOUNT
       (mkGValue TP_TYPE_ACCOUNT None)) w
    = Some (mkGValue TP_TYPE_ACCOUNT (Some a), w')
    ∧ refcount w' a = S (S (S n))
    ∧ (∀ q, q ≠ a → refs w' !! q = refs w !! q)
    ∧ calls w' = calls w.
Proof.
  intros Hp Hr. eexists. split; [|split; [|split]].
  - unfold presence_widget_set_property, presence_widget_get_property,
      g_value_dup_object, g_value_set_object, g_ref.
    run_M using (rewrite ?Hp, ?Hr, ?lookup_insert_eq). reflexivity.
  - unfold refcount. simpl. rewrite lookup_insert_eq. reflexivity.
  - intros q Hq. simpl. rewrite !lookup_insert_ne by congruence. reflexivity.
  - reflexivity.
Qed.

Lemma get_property_after_set_property_witness :
  widgets demo_world_unbound !! 3%positive = Some demo_private_unbound
  ∧ refs demo_world_unbound !! 1%positive = Some 1
  ∧ ∃ w',
      (presence_widget_set_property 3%positive PROP_ACCOUNT
         (mkGValue TP_TYPE_ACCOUNT (Some 1%positive)) ;;
       presence_widget_get_property 3%positive PROP_ACCOUNT
         (mkGValue TP_TYPE_ACCOUNT None)) demo_world_unbound
      = Some (mkGValue TP_TYPE_ACCOUNT (Some 1%positive), w')
      ∧ refcount w' 1%positive = 3.
Proof.
  assert (H1 : widgets demo_world_unbound !! 3%positive
               = Some demo_private_unbound) by (vm_compute; reflexivity).
  assert (H2 : refs demo_world_unbound !! 1%positive = Some 1)
    by (vm_compute; reflexivity).
  repeat (split; [assumption|]).
  destruct (get_property_after_set_property 3%positive demo_private_unbound
              1%positive 0 demo_world_unbound H1 H2)
    as (w' & Hrun & Hcount & _).
  exists w'. split; assumption.
Defined.

(** * What holds between two events *)

(** X9: between two events the guard counter of every widget is zero:
    every handler that raises it lowers it again before it returns, and
    nothing else writes to it. *)
Theorem guard_zero_between_events te w self p :
  reachable te w →
  widgets w !! self = Some p →
  updating_ui_lock p = 0%Z.
Proof. intros Hr%reachable_wf Hp. exact (wf_lock _ Hr self p Hp). Qed.

Lemma guard_zero_between_events_witness :
  reachable gtk2_emissions demo_world_cached
  ∧ widgets demo_world_cached !! 3%positive = Some demo_private_cached
  ∧ updating_ui_lock demo_private_cached = 0%Z.
Proof.
  assert (H1 : reachable gtk2_emissions demo_world_cached).
  { apply (run_reachable gtk2_emissions demo_events_cached empty_world).
    - apply reachable_start.
    - vm_compute. reflexivity. }
  assert (H2 : widgets demo_world_cached !! 3%positive
               = Some demo_private_cached) by (vm_compute; reflexivity).
  repeat (split; [assumption|]).
  exact (guard_zero_between_events gtk2_emissions demo_world_cached
           3%positive demo_private_cached H1 H2).
Defined.

(** X10: check buttons are private to their widget: between two events,
    every handler connected to "toggled" is [_enabled_toggled], connected
    on the check button of the very widget it is given as data, and no two
    widgets have the same check button. *)
Theorem check_button_is_private te w :
  reachable te w →
  (∀ c, c ∈ signals w → sc_signal c = "toggled" →
     sc_handler c = H_enabled_toggled
     ∧ ∃ p, widgets w !! sc_data c = Some p
            ∧ enabled_check p = Some (sc_instance c))
  ∧ (∀ s1 s2 p1 p2 b,
       widgets w !! s1 = Some p1 → widgets w !! s2 = Some p2 →
       enabled_check p1 = Some b → enabled_check p2 = Some b → s1 = s2).
Proof.
  intros Hr%reachable_wf. split.
  - exact (wf_toggled _ Hr).
  - exact (wf_check_inj _ Hr).
Qed.

Lemma check_button_is_private_witness :
  reachable gtk2_emissions demo_world
  ∧ sc_handler (mkConnection 4%positive "toggled" H_enabled_toggled 3%positive)
    = H_enabled_toggled
  ∧ ∃ p, widgets demo_world
           !! sc_data (mkConnection 4%positive "toggled" H_enabled_toggled
                         3%positive) = Some p
         ∧ enabled_check p = Some 4%positive.
Proof.
  assert (H1 : reachable gtk2_emissions demo_world).
  { apply (run_reachable gtk2_emissions demo_events empty_world).
    - apply reachable_start.
    - vm_compute. reflexivity. }
  split; [exact H1|].
  apply (proj1 (check_button_is_private gtk2_emissions demo_world H1)
           (mkConnection 4%positive "toggled" H_enabled_toggled 3%positive)).
  - replace (signals demo_world) with
      (mkConnection 4%positive "toggled" H_enabled_toggled 3%positive
       :: drop 1 (signals demo_world)) by (vm_compute; reflexivity).
    apply list_elem_of_here.
  - reflexivity.
Defined.

(** * The effect of construction *)

Lemma notify_display_name_run self pspec a p b t acc w :
  widgets w !! self = Some p →
  enabled_check p = Some b →
  toggles w !! b = Some t →
  accounts w !! a = Some acc →
  _notify_display_name self pspec (Some a) w
  = Some (tt, with_toggles
                <[b := mkToggle (active t) (Some (acc_display_name acc))]> w).
Proof.
  intros Hp Hb Ht Ha.
  unfold _notify_display_name, tp_account_get_display_name,
    gtk_button_set_label.
  run_M using (rewrite ?Hp, ?Ha, ?Hb, ?Ht). reflexivity.
Qed.

Lemma notify_presence_run self pspec a p i old acc icon w :
  widgets w !! self = Some p →
  status_icon p = Some i →
  images w !! i = Some old →
  accounts w !! a = Some acc →
  presence_icons !! presence_index (acc_presence acc) = Some (Some icon) →
  _notify_presence self pspec (Some a) w
  = Some (tt, with_images <[i := Some icon]> w).
Proof.
  intros Hp Hi Ho Ha Hicon.
  unfold _notify_presence, tp_account_get_presence,
    gtk_image_set_from_icon_name.
  run_M using (rewrite ?Hp, ?Ha, ?Hi, ?Ho, ?Hicon). reflexivity.
Qed.

(** The text [_notify_status_message] shows for an account. *)
Lemma shown_message_exists (acc : TpAccount) :
  ∃ shown,
    (acc_status_message acc = "" →
     default_messages !! presence_index (acc_presence acc) = Some (Some shown))
    ∧ (acc_status_message acc ≠ "" → shown = acc_status_message acc).
Proof.
  destruct (acc_status_message acc) as [|ch rest] eqn:E.
  - destruct (default_messages_lookup (acc_presence acc)) as [msg Hmsg].
    exists msg. split; [intros _; exact Hmsg|congruence].
  - exists (String ch rest). split; [discriminate|reflexivity].
Qed.

Lemma notify_status_message_run self pspec a p lbl old acc shown w :
  widgets w !! self = Some p →
  status_message p = Some lbl →
  labels w !! lbl = Some old →
  accounts w !! a = Some acc →
  (acc_status_message acc = "" →
   default_messages !! presence_index (acc_presence acc) = Some (Some shown)) →
  (acc_status_message acc ≠ "" → shown = acc_status_message acc) →
  _notify_status_message self pspec (Some a) w
  = Some (tt, with_labels <[lbl := shown]> w).
Proof.
  intros Hp Hl Ho Ha Hempty Hfull.
  unfold _notify_status_message, tp_account_get_status_message,
    tp_account_get_presence, gtk_label_set_text, strlen.
  destruct (acc_status_message acc) as [|ch rest] eqn:Emsg.
  - specialize (Hempty eq_refl).
    run_M using (rewrite ?Hp, ?Ha, ?Hl, ?Ho, ?Emsg, ?Hempty). reflexivity.
  - rewrite (Hfull ltac:(discriminate)).
    run_M using (rewrite ?Hp, ?Ha, ?Hl, ?Ho, ?Emsg). reflexivity.
Qed.

(** The request [_status_changed] makes for an account, if any. *)
Lemma status_changed_run self old_status new_status reason a acc w :
  accounts w !! a = Some acc →
  ∃ w',
    _status_changed self old_status new_status reason (Some a) w = Some (tt, w')
    ∧ next w' = next w ∧ widgets w' = widgets w ∧ toggles w' = toggles w
    ∧ images w' = images w ∧ labels w' = labels w
    ∧ accounts w' = accounts w ∧ connections w' = connections w
    ∧ refs w' = refs w ∧ signals w' = signals w
    ∧ calls w' = (calls w ++ probe_calls self new_status acc)%list.
Proof.
  intros Ha. unfold _status_changed, tp_account_get_connection, probe_calls.
  destruct (acc_connection acc) as [c|] eqn:Ec.
  - case_bool_decide as Hd.
    + eexists. split.
      * run_M using (rewrite ?Ha, ?Ec). reflexivity.
      * repeat split.
    + exists w. split.
      * run_M using (rewrite ?Ha, ?Ec). reflexivity.
      * repeat split. rewrite app_nil_r. reflexivity.
  - exists w. split.
    + run_M using (rewrite ?Ha, ?Ec). reflexivity.
    + repeat split. rewrite app_nil_r. reflexivity.
Qed.

(** The effect of [presence_widget_constructed] on a widget that has
    its three toolkit objects and is bound to a live account, in a world
    where its check button has no foreign "toggled" handler. *)
Lemma constructed_effect te self p a acc b t i oi l ol w :
  widgets w !! self = Some p →
  account p = Some a →
  (0 ≤ updating_ui_lock p < 2 ^ 31 - 1)%Z →
  enabled_check p = Some b → toggles w !! b = Some t →
  status_icon p = Some i → images w !! i = Some oi →
  status_message p = Some l → labels w !! l = Some ol →
  accounts w !! a = Some acc →
  (∀ c, c ∈ signals w → sc_instance c = b → sc_signal c = "toggled" →
     sc_handler c = H_enabled_toggled ∧ sc_data c = self) →
  ∃ w' icon shown,
    presence_widget_constructed te self w = Some (tt, w')
    ∧ presence_icons !! presence_index (acc_presence acc) = Some (Some icon)
    ∧ (acc_status_message acc = "" →
       default_messages !! presence_index (acc_presence acc) = Some (Some shown))
    ∧ (acc_status_message acc ≠ "" → shown = acc_status_message acc)
    ∧ next w' = next w
    ∧ widgets w' = widgets w
    ∧ toggles w'
      = <[b := mkToggle (acc_enabled acc) (Some (acc_display_name acc))]>
          (toggles w)
    ∧ images w' = <[i := Some icon]> (images w)
    ∧ labels w' = <[l := shown]> (labels w)
    ∧ accounts w' = accounts w
    ∧ connections w' = connections w
    ∧ refs w' = refs w
    ∧ signals w' = (signals w ++ drop 1 (new_connections self b a))%list
    ∧ calls w'
      = (calls w ++ probe_calls self (acc_connection_status acc) acc)%list.
Proof.
  intros Hp Hacc Hl Hb Ht Hi Hoi Hlb Hol Ha Hsig.
  destruct (presence_icons_lookup (acc_presence acc)) as [icon Hicon].
  destruct (shown_message_exists acc) as (shown & Hempty & Hfull).
  set (w1 := with_signals (λ s, s ++ drop 1 (new_connections self b a))%list w).
  set (w2 := with_toggles <[b := mkToggle (acc_enabled acc) (label t)]> w1).
  set (w3 := with_toggles
               <[b := mkToggle (acc_enabled acc) (Some (acc_display_name acc))]>
               w2).
  set (w4 := with_images <[i := Some icon]> w3).
  set (w5 := with_labels <[l := shown]> w4).
  destruct (status_changed_run self 0 (acc_connection_status acc) 0 a acc w5 Ha)
    as (w6 & Hrun6 & Hn & Hw & Ht6 & Hi6 & Hl6 & Ha6 & Hc6 & Hr6 & Hs6 & Hcalls).
  exists w6, icon, shown.
  split; [|split; [exact Hicon|split; [exact Hempty|split; [exact Hfull|]]]].
  - unfold presence_widget_constructed.
    rewrite (bind_run _ _ w w p) by (run_M using (rewrite ?Hp); reflexivity).
    rewrite Hacc.
    assert (Hconn : ∀ (k : M unit),
      (g_signal_connect_swapped (Some a) "notify::enabled" H_notify_enabled self ;;
       g_signal_connect_swapped (Some a) "notify::display-name"
         H_notify_display_name self ;;
       g_signal_connect_swapped (Some a) "notify::presence"
         H_notify_presence self ;;
       g_signal_connect_swapped (Some a) "notify::status-message"
         H_notify_status_message self ;;
       g_signal_connect_swapped (Some a) "status-changed" H_status_changed self ;;
       g_signal_connect_swapped (Some a) "removed" H_account_removed self ;;
       k) w = k w1).
    { intros k. unfold g_signal_connect_swapped. unfold_M. simpl.
      unfold w1. simpl. rewrite <- !app_assoc. reflexivity. }
    rewrite Hconn.
    rewrite (bind_run _ _ w1 w2 tt).
    2:{ apply notify_enabled_exact with (p := p); try assumption.
        intros c [Hc|Hc]%elem_of_app Hci Hcs; [auto|].
        simpl in Hc. repeat (apply elem_of_cons in Hc as [->|Hc]);
          try discriminate Hcs. inversion Hc. }
    rewrite (bind_run _ _ w2 w3 tt).
    2:{ apply notify_display_name_run with (p := p) (t := mkToggle (acc_enabled acc) (label t));
          try assumption. apply lookup_insert_eq. }
    rewrite (bind_run _ _ w3 w4 tt).
    2:{ apply notify_presence_run with (p := p) (old := oi) (acc := acc); assumption. }
    rewrite (bind_run _ _ w4 w5 tt).
    2:{ apply notify_status_message_run with (p := p) (old := ol) (acc := acc); assumption. }
    rewrite (bind_run _ _ w5 w5 (acc_connection_status acc)).
    2:{ unfold tp_account_get_connection_status.
        run_M using (rewrite ?Ha). reflexivity. }
    exact Hrun6.
  - rewrite Hn, Hw, Ht6, Hi6, Hl6, Ha6, Hc6, Hr6, Hs6, Hcalls. simpl.
    rewrite insert_insert_eq. repeat split.
Qed.

(** The effect of the instance initialiser: four fresh addresses, for
    the check button, the table, the image and the label; the three
    pointers stored; one connection, on the check button. *)
Lemma init_effect self p0 w :
  widgets w !! self = Some p0 →
  presence_widget_init self w
  = Some (tt,
      mkWorld
        (Pos.succ (Pos.succ (Pos.succ (Pos.succ (next w)))))
        (<[self := set_status_message
                     (Some (Pos.succ (Pos.succ (Pos.succ (next w)))))
                     (set_status_icon (Some (Pos.succ (Pos.succ (next w))))
                        (set_enabled_check (Some (next w)) p0))]> (widgets w))
        (<[next w := mkToggle false None]> (toggles w))
        (<[Pos.succ (Pos.succ (next w)) := None]> (images w))
        (<[Pos.succ (Pos.succ (Pos.succ (next w))) := ""]> (labels w))
        (accounts w) (connections w) (refs w)
        (signals w ++ [mkConnection (next w) "toggled" H_enabled_toggled self])
        (calls w ++ layout_calls self (next w) (Pos.succ (next w))
                      (Pos.succ (Pos.succ (next w)))
                      (Pos.succ (Pos.succ (Pos.succ (next w)))))).
Proof.
  intros Hp.
  unfold presence_widget_init, gtk_check_button_new, gtk_image_new,
    gtk_label_new, g_signal_connect_swapped.
  run_M using (rewrite ?Hp, ?lookup_insert_eq).
  rewrite !insert_insert_eq. unfold layout_calls.
  rewrite <- !app_assoc. reflexivity.
Qed.

Lemma set_property_run self p a n ty w :
  widgets w !! self = Some p →
  refs w !! a = Some (S n) →
  presence_widget_set_property self PROP_ACCOUNT (mkGValue ty (Some a)) w
  = Some (tt, with_widgets <[self := set_account (Some a) p]>
                (with_refs <[a := S (S n)]> w)).
Proof.
  intros Hp Hr.
  unfold presence_widget_set_property, g_value_dup_object, g_ref.
  run_M using (rewrite ?Hp, ?Hr). reflexivity.
Qed.

(** The effect of [presence_widget_new] on a live account, in a world
    between two events. *)
Lemma presence_widget_new_effect te a acc n w :
  wf w →
  accounts w !! a = Some acc →
  refs w !! a = Some (S n) →
  ∃ w' icon shown,
    presence_widget_new te (Some a) w = Some (Some (next w), w')
    ∧ presence_icons !! presence_index (acc_presence acc) = Some (Some icon)
    ∧ (acc_status_message acc = "" →
       default_messages !! presence_index (acc_presence acc) = Some (Some shown))
    ∧ (acc_status_message acc ≠ "" → shown = acc_status_message acc)
    ∧ next w' = Pos.succ (Pos.succ (Pos.succ (Pos.succ (Pos.succ (next w)))))
    ∧ widgets w'
      = <[next w := mkPrivate (Some a) None (Some (Pos.succ (next w)))
                      (Some (Pos.succ (Pos.succ (Pos.succ (next w)))))
                      (Some (Pos.succ (Pos.succ (Pos.succ (Pos.succ (next w))))))
                      0]> (widgets w)
    ∧ toggles w'
      = <[Pos.succ (next w)
          := mkToggle (acc_enabled acc) (Some (acc_display_name acc))]>
          (toggles w)
    ∧ images w'
      = <[Pos.succ (Pos.succ (Pos.succ (next w))) := Some icon]> (images w)
    ∧ labels w'
      = <[Pos.succ (Pos.succ (Pos.succ (Pos.succ (next w)))) := shown]>
          (labels w)
    ∧ accounts w' = accounts w
    ∧ connections w' = connections w
    ∧ refs w' = <[a := S (S n)]> (refs w)
    ∧ signals w'
      = (signals w ++ new_connections (next w) (Pos.succ (next w)) a)%list
    ∧ calls w'
      = (calls w
         ++ layout_calls (next w) (Pos.succ (next w))
              (Pos.succ (Pos.succ (next w)))
              (Pos.succ (Pos.succ (Pos.succ (next w))))
              (Pos.succ (Pos.succ (Pos.succ (Pos.succ (next w)))))
         ++ probe_calls (next w) (acc_connection_status acc) acc)%list.
Proof.
  intros W Ha Hr.
  set (self := next w).
  set (b := Pos.succ self). set (tb := Pos.succ b).
  set (i := Pos.succ tb). set (l := Pos.succ i).
  set (w0 := with_widgets <[self := zeroed_private]> (with_next Pos.succ w)).
  assert (Hinit := init_effect self zeroed_private w0 (lookup_insert_eq _ _ _)).
  simpl in Hinit. rewrite insert_insert_eq in Hinit.
  fold b tb i l in Hinit.
  match type of Hinit with _ = Some (_, ?x) => set (w1 := x) in Hinit end.
  set (p1 := set_status_message (Some l)
               (set_status_icon (Some i)
                  (set_enabled_check (Some b) zeroed_private))) in *.
  assert (Hset := set_property_run self p1 a n TP_TYPE_ACCOUNT w1
                    (lookup_insert_eq _ _ _) Hr).
  match type of Hset with _ = Some (_, ?x) => set (w2 := x) in Hset end.
  destruct (constructed_effect te self (set_account (Some a) p1) a acc b
              (mkToggle false None) i None l "" w2)
    as (w3 & icon & shown & Hrun & Hicon & Hempty & Hfull & Hn3 & Hw3 & Ht3
        & Hi3 & Hl3 & Ha3 & Hc3 & Hr3 & Hs3 & Hcalls3).
  { apply lookup_insert_eq. }
  { reflexivity. }
  { simpl. lia. }
  { reflexivity. }
  { apply lookup_insert_eq. }
  { reflexivity. }
  { apply lookup_insert_eq. }
  { reflexivity. }
  { apply lookup_insert_eq. }
  { exact Ha. }
  { simpl. intros c [Hc|Hc]%elem_of_app Hci Hcs.
    - exfalso. destruct (wf_toggled _ W c Hc Hcs) as (_ & q & Hq & Hqb).
      destruct (wf_check _ W _ q Hq) as (b' & Hb' & _ & Hlt).
      rewrite Hqb in Hb'. injection Hb' as Hb'. subst b'.
      rewrite Hci in Hlt. unfold b, self in Hlt. lia.
    - apply list_elem_of_singleton in Hc. subst c. split; reflexivity. }
  exists w3, icon, shown.
  split; [|split; [exact Hicon|split; [exact Hempty|split; [exact Hfull|]]]].
  - unfold presence_widget_new, TP_IS_ACCOUNT.
    rewrite (bind_run _ _ w w true).
    2:{ unfold gets. rewrite Ha. reflexivity. }
    cbv iota. rewrite (bind_run _ _ w w3 self); [reflexivity|].
    unfold g_object_new.
    rewrite (bind_run _ _ w (with_next Pos.succ w) self) by reflexivity.
    rewrite (bind_run _ _ _ w0 tt) by reflexivity.
    rewrite (bind_run _ _ _ _ _ Hinit).
    rewrite (bind_run _ _ _ _ _ Hset).
    rewrite (bind_run _ _ _ _ _ Hrun). reflexivity.
  - rewrite Hn3, Hw3, Ht3, Hi3, Hl3, Ha3, Hc3, Hr3, Hs3, Hcalls3. simpl.
    rewrite !insert_insert_eq. unfold new_connections. simpl.
    rewrite <- !app_assoc. repeat split.
Qed.

(** * The second invariant *)

#[local] Instance keeps_preorder : PreOrder keeps.
Proof.
  split.
  - intros w. split; eauto.
  - intros w1 w2 w3 [W1 I1 L1 A1] [W2 I2 L2 A2]. split; auto.
    intros self p Hp.
    destruct (W1 self p Hp) as (p2 & Hp2 & Hi2 & Hl2).
    destruct (W2 self p2 Hp2) as (p3 & Hp3 & Hi3 & Hl3).
    exists p3. repeat split; congruence.
Qed.

Lemma keeps_next f w : keeps w (with_next f w).
Proof. split; simpl; eauto. Qed.
Lemma keeps_toggles f w : keeps w (with_toggles f w).
Proof. split; simpl; eauto. Qed.
Lemma keeps_connections f w : keeps w (with_connections f w).
Proof. split; simpl; eauto. Qed.
Lemma keeps_refs f w : keeps w (with_refs f w).
Proof. split; simpl; eauto. Qed.
Lemma keeps_signals f w : keeps w (with_signals f w).
Proof. split; simpl; eauto. Qed.
Lemma keeps_calls f w : keeps w (with_calls f w).
Proof. split; simpl; eauto. Qed.

Lemma keeps_images_insert k v w : keeps w (with_images <[k := v]> w).
Proof.
  split; simpl; eauto. intros k' H. apply lookup_insert_is_Some.
  destruct (decide (k = k')); [left|right]; auto.
Qed.

Lemma keeps_labels_insert k v w : keeps w (with_labels <[k := v]> w).
Proof.
  split; simpl; eauto. intros k' H. apply lookup_insert_is_Some.
  destruct (decide (k = k')); [left|right]; auto.
Qed.

Lemma keeps_accounts_insert k v w : keeps w (with_accounts <[k := v]> w).
Proof.
  split; simpl; eauto. intros k' H. apply lookup_insert_is_Some.
  destruct (decide (k = k')); [left|right]; auto.
Qed.

Lemma keeps_widgets_insert self p p' w :
  widgets w !! self = Some p →
  status_icon p' = status_icon p →
  status_message p' = status_message p →
  keeps w (with_widgets <[self := p']> w).
Proof.
  intros Hp Hi Hl. split; simpl; eauto.
  intros s q Hq. destruct (decide (self = s)) as [->|Hne].
  - rewrite lookup_insert_eq. exists p'. split; [reflexivity|]. split; congruence.
  - rewrite lookup_insert_ne by done. eauto.
Qed.

Create HintDb keeps.
#[local] Hint Resolve keeps_next keeps_toggles keeps_connections keeps_refs
  keeps_signals keeps_calls keeps_images_insert keeps_labels_insert
  keeps_accounts_insert : keeps.

Ltac keeps_auto :=
  preserves_auto;
  try solve [ eauto with keeps
            | eapply keeps_widgets_insert; [eassumption|reflexivity..] ].

Lemma keeps_enabled_toggled self button :
  preserves keeps (_enabled_toggled self button).
Proof.
  unfold _enabled_toggled, gtk_toggle_button_get_active, GET_PRIVATE,
    get_toggle, call.
  keeps_auto.
Qed.

Lemma keeps_emit_toggled button : preserves keeps (emit_toggled button).
Proof.
  unfold emit_toggled. keeps_auto.
  unfold run_toggled_handler. keeps_auto. apply keeps_enabled_toggled.
Qed.

Lemma keeps_deliver_toggled n button :
  preserves keeps (deliver_toggled n button).
Proof.
  induction n as [|n IH]; simpl; [keeps_auto|].
  keeps_auto. apply keeps_emit_toggled.
Qed.

Lemma keeps_notify_enabled te self pspec a :
  preserves keeps (_notify_enabled te self pspec a).
Proof.
  unfold _notify_enabled, tp_account_is_enabled, gtk_toggle_button_set_active,
    GET_PRIVATE, get_toggle, get_account.
  keeps_auto. apply keeps_deliver_toggled.
Qed.

Lemma keeps_notify_display_name self pspec a :
  preserves keeps (_notify_display_name self pspec a).
Proof.
  unfold _notify_display_name, tp_account_get_display_name,
    gtk_button_set_label, GET_PRIVATE, get_toggle, get_account.
  keeps_auto.
Qed.

Lemma keeps_notify_presence self pspec a :
  preserves keeps (_notify_presence self pspec a).
Proof.
  unfold _notify_presence, tp_account_get_presence,
    gtk_image_set_from_icon_name, GET_PRIVATE, get_account.
  keeps_auto.
Qed.

Lemma keeps_notify_status_message self pspec a :
  preserves keeps (_notify_status_message self pspec a).
Proof.
  unfold _notify_status_message, tp_account_get_status_message,
    tp_account_get_presence, gtk_label_set_text, GET_PRIVATE, get_account.
  keeps_auto.
Qed.

Lemma keeps_status_changed self o n r a :
  preserves keeps (_status_changed self o n r a).
Proof.
  unfold _status_changed, tp_account_get_connection, get_account, call.
  keeps_auto.
Qed.

Lemma keeps_connection_ready conn error self :
  preserves keeps (_connection_ready conn error self).
Proof.
  unfold _connection_ready, tp_proxy_has_interface, GET_PRIVATE, call.
  keeps_auto.
Qed.

Lemma keeps_get_property_statuses conn value error self :
  preserves keeps (_get_property_statuses conn value error self).
Proof.
  unfold _get_property_statuses, g_hash_table_unref, g_hash_table_ref,
    g_value_get_boxed, g_unref, g_ref, GET_PRIVATE, call.
  keeps_auto.
Qed.

Lemma keeps_dispose self : preserves keeps (presence_widget_dispose self).
Proof.
  unfold presence_widget_dispose, g_object_unref, g_unref, GET_PRIVATE, call.
  keeps_auto.
Qed.

Lemma keeps_account_removed self a : preserves keeps (_account_removed self a).
Proof.
  unfold _account_removed, gtk_widget_destroy. keeps_auto.
  - unfold call. keeps_auto.
  - apply keeps_dispose.
Qed.

Lemma keeps_user_click button : preserves keeps (user_click button).
Proof.
  unfold user_click, get_toggle. keeps_auto. apply keeps_emit_toggled.
Qed.

Lemma keeps_run_account_handler te a s c :
  preserves keeps (run_account_handler te a s c).
Proof.
  unfold run_account_handler. keeps_auto;
    first [ apply keeps_notify_enabled | apply keeps_notify_display_name
          | apply keeps_notify_presence | apply keeps_notify_status_message
          | apply keeps_status_changed | apply keeps_account_removed ].
Qed.

Lemma sound_frame_keeps w w' : sound w → frame w w' → keeps w w' → sound w'.
Proof.
  intros [S1 S2 S3 S4 S5 S6] F K.
  pose proof (frame_signals _ _ F) as Hsig. split.
  - intros c Hc. rewrite Hsig in Hc. auto.
  - intros c Hc. rewrite Hsig in Hc. destruct (S2 c Hc) as [p Hp].
    destruct (frame_widgets _ _ F _ p Hp) as (p' & Hp' & _). eauto.
  - intros c Hc Hs. rewrite Hsig in Hc. eapply keeps_accounts; eauto.
  - intros self p' Hp'.
    destruct (frame_widget_back _ _ _ _ F Hp') as (p & Hp & _ & _).
    destruct (keeps_widgets _ _ K self p Hp) as (q & Hq & Hi & _).
    assert (q = p') by congruence. subst q.
    destruct (S4 self p Hp) as (i & Hpi & Him & Hlt).
    exists i. split; [congruence|]. split; [eapply keeps_images; eauto|].
    pose proof (frame_next _ _ F). lia.
  - intros self p' Hp'.
    destruct (frame_widget_back _ _ _ _ F Hp') as (p & Hp & _ & _).
    destruct (keeps_widgets _ _ K self p Hp) as (q & Hq & _ & Hl).
    assert (q = p') by congruence. subst q.
    destruct (S5 self p Hp) as (l & Hpl & Hlb & Hlt).
    exists l. split; [congruence|]. split; [eapply keeps_labels; eauto|].
    pose proof (frame_next _ _ F). lia.
  - intros self p' b Hp' Hb. rewrite Hsig.
    destruct (frame_widget_back _ _ _ _ F Hp') as (p & Hp & Hc & _).
    apply (S6 self p b Hp). congruence.
Qed.

Lemma sound_empty : sound empty_world.
Proof.
  split; simpl.
  - intros c H. inversion H.
  - intros c H. inversion H.
  - intros c H. inversion H.
  - intros self p H. rewrite lookup_empty in H. discriminate.
  - intros self p H. rewrite lookup_empty in H. discriminate.
  - intros self p b H. rewrite lookup_empty in H. discriminate.
Qed.

Lemma good_frame_keeps w w' : good w → frame w w' → keeps w w' → good w'.
Proof.
  intros [W S] F K. split; [eapply wf_frame | eapply sound_frame_keeps]; eauto.
Qed.

Lemma good_preserved {A} (m : M A) :
  preserves frame m → preserves keeps m → invariant good m.
Proof.
  intros F K w x w' G H. eapply good_frame_keeps; [exact G| |].
  - eapply F, H.
  - eapply K, H.
Qed.

Section Good.

Context (toggled_emissions : bool → bool → nat).

(** Between two events, a handler of an account signal stays within the
    frame. *)
Lemma frame_run_account_handler a s c w x w' :
  wf w →
  run_account_handler toggled_emissions a s c w = Some (x, w') →
  frame w w'.
Proof.
  intros W H. unfold run_account_handler in H.
  case_bool_decide; [|cbv [mret M_ret] in H; simplify_eq; reflexivity].
  destruct (sc_handler c), s; try discriminate H.
  - destruct (notify_enabled_wf_exact toggled_emissions _ _ _ _ _ _ W H)
      as (b & v & ->).
    apply frame_toggles_insert.
  - eapply frame_notify_display_name, H.
  - eapply frame_notify_presence, H.
  - eapply frame_notify_status_message, H.
  - eapply frame_status_changed, H.
  - eapply frame_account_removed, H.
Qed.

Lemma good_run_account_handler a s c :
  invariant good (run_account_handler toggled_emissions a s c).
Proof.
  intros w x w' G H. eapply good_frame_keeps; [exact G| |].
  - eapply frame_run_account_handler; [exact (proj1 G)|exact H].
  - eapply keeps_run_account_handler, H.
Qed.

Lemma good_emit_account_signal a s :
  invariant good (emit_account_signal toggled_emissions a s).
Proof.
  unfold emit_account_signal. apply invariant_bind.
  - apply good_preserved; [apply preserves_gets | apply preserves_gets]; apply _.
  - intros l. apply invariant_for_each. intros c _.
    apply good_run_account_handler.
Qed.

(** A construction that returns a widget was given a live account. *)
Lemma presence_widget_new_Some account w x w' :
  presence_widget_new toggled_emissions account w = Some (x, w') →
  (x = None ∧ frame w w' ∧ keeps w w')
  ∨ ∃ a acc n, account = Some a ∧ accounts w !! a = Some acc
               ∧ refs w !! a = Some (S n).
Proof.
  intros H. unfold presence_widget_new in H.
  apply bind_Some in H as (ok & w0 & Hok & H).
  destruct account as [a|]; simpl in Hok.
  - cbv [gets] in Hok. simplify_eq.
    destruct (accounts w0 !! a) as [acc|] eqn:Ha; simpl in H.
    + right. exists a, acc.
      apply bind_Some in H as (self & w1 & H & _).
      unfold g_object_new in H.
      apply bind_Some in H as (s & w2 & Hs & H).
      cbv [alloc gets modify mbind M_bind mret M_ret] in Hs. simplify_eq.
      apply bind_Some in H as (u & w3 & Hu & H).
      cbv [modify] in Hu. simplify_eq.
      apply bind_Some in H as (u & w4 & Hinit & H).
      rewrite (init_effect (next w0) zeroed_private) in Hinit
        by apply lookup_insert_eq.
      simplify_eq.
      apply bind_Some in H as (u & w5 & Hset & _).
      unfold presence_widget_set_property in Hset.
      apply bind_Some in Hset as (p & w6 & [_ ->]%GET_PRIVATE_Some & Hset).
      rewrite bool_decide_eq_true_2 in Hset by reflexivity.
      apply bind_Some in Hset as (q & w7 & Hdup & _).
      unfold g_value_dup_object in Hdup. simpl in Hdup.
      apply bind_Some in Hdup as (r & w8 & Href & _).
      unfold g_ref in Href. unfold_M. simpl in Href.
      destruct (refs w0 !! a) as [[|n]|]; simpl in Href; try discriminate.
      exists n. split; [reflexivity|]. split; [assumption|reflexivity].
    + left. apply bind_Some in H as (u & w1 & Hc & H).
      cbv [call modify] in Hc. cbv [mret M_ret] in H. simplify_eq.
      split; [reflexivity|]. split; [apply frame_calls|apply keeps_calls].
  - cbv [mret M_ret] in Hok. simplify_eq.
    left. apply bind_Some in H as (u & w1 & Hc & H).
    cbv [call modify] in Hc. cbv [mret M_ret] in H. simplify_eq.
    split; [reflexivity|]. split; [apply frame_calls|apply keeps_calls].
Qed.

Lemma wf_presence_widget_new account :
  invariant wf (presence_widget_new toggled_emissions account).
Proof.
  intros w x w' W H.
  apply (wf_handle toggled_emissions (Ev_widget_new account) w tt w' W).
  simpl. rewrite (bind_run _ _ w w' x H). reflexivity.
Qed.

Lemma filter_none {A} (P : A → Prop) `{∀ x, Decision (P x)} (l : list A) :
  (∀ x, x ∈ l → ¬ P x) → filter P l = [].
Proof.
  induction l as [|x l IH]; intros H'; [reflexivity|].
  rewrite filter_cons_False by (apply H'; left).
  apply IH. intros y Hy. apply H'. right. exact Hy.
Qed.

(** The connections of a new widget, filtered by a check button. *)
Lemma filter_new_connections self check a b :
  filter (λ c, sc_instance c = b ∧ sc_signal c = "toggled")
    (new_connections self check a)
  = if decide (check = b)
    then [mkConnection check "toggled" H_enabled_toggled self] else [].
Proof.
  unfold new_connections.
  rewrite (filter_cons _ (mkConnection check _ _ _)).
  rewrite filter_none.
  - simpl. destruct (decide (check = b)) as [->|N].
    + rewrite decide_True by (split; reflexivity). reflexivity.
    + rewrite decide_False by (intros [E _]; exact (N E)). reflexivity.
  - intros c Hc [_ Hs].
    repeat (apply elem_of_cons in Hc as [->|Hc]; [discriminate Hs|]).
    inversion Hc.
Qed.

(** Construction establishes the second invariant for the new widget and
    keeps it for the others. *)
Lemma sound_presence_widget_new account w x w' :
  good w →
  presence_widget_new toggled_emissions account w = Some (x, w') →
  sound w'.
Proof.
  intros [W S] H.
  destruct (presence_widget_new_Some _ _ _ _ H)
    as [(_ & F & K)|(a & acc & n & -> & Ha & Hr)].
  { eapply sound_frame_keeps; eauto. }
  destruct (presence_widget_new_effect toggled_emissions a acc n w W Ha Hr)
    as (w1 & icon & shown & Hnew & _ & _ & _ & Hnext & Hwid & _ & Him & Hlb
        & Hacc & _ & _ & Hsig & _).
  rewrite Hnew in H. simplify_eq.
  destruct S as [S1 S2 S3 S4 S5 S6].
  assert (Hold : ∀ c, c ∈ signals w → sc_signal c = "toggled" →
                      (sc_instance c < next w)%positive).
  { intros c Hc Hs. destruct (wf_toggled _ W c Hc Hs) as (_ & p & Hp & Hb).
    destruct (wf_check _ W _ p Hp) as (b & Hb' & _ & Hlt).
    assert (b = sc_instance c) by congruence. subst b. exact Hlt. }
  split.
  - intros c Hc. rewrite Hsig in Hc. apply elem_of_app in Hc as [Hc|Hc]; [auto|].
    unfold new_connections in Hc. unfold connection_kinds.
    repeat (apply elem_of_cons in Hc as [->|Hc]; [simpl; repeat first [apply list_elem_of_here | apply list_elem_of_further]|]).
    inversion Hc.
  - intros c Hc. rewrite Hsig in Hc. rewrite Hwid.
    apply lookup_insert_is_Some'.
    apply elem_of_app in Hc as [Hc|Hc]; [right; auto|]. left.
    unfold new_connections in Hc.
    repeat (apply elem_of_cons in Hc as [->|Hc]; [reflexivity|]).
    inversion Hc.
  - intros c Hc Hs. rewrite Hsig in Hc. rewrite Hacc.
    apply elem_of_app in Hc as [Hc|Hc]; [auto|].
    unfold new_connections in Hc.
    apply elem_of_cons in Hc as [->|Hc]; [contradiction Hs; reflexivity|].
    repeat (apply elem_of_cons in Hc as [->|Hc]; [simpl; eauto|]).
    inversion Hc.
  - intros self p Hp. rewrite Hwid in Hp. rewrite Hnext, Him.
    destruct (decide (self = next w)) as [->|N].
    + rewrite lookup_insert_eq in Hp. simplify_eq. simpl.
      eexists. split; [reflexivity|].
      rewrite lookup_insert_eq. split; [eauto|lia].
    + rewrite lookup_insert_ne in Hp by done.
      destruct (S4 self p Hp) as (i & Hi & Hsome & Hlt).
      exists i. split; [exact Hi|]. split; [|lia].
      apply lookup_insert_is_Some'. right. exact Hsome.
  - intros self p Hp. rewrite Hwid in Hp. rewrite Hnext, Hlb.
    destruct (decide (self = next w)) as [->|N].
    + rewrite lookup_insert_eq in Hp. simplify_eq. simpl.
      eexists. split; [reflexivity|].
      rewrite lookup_insert_eq. split; [eauto|lia].
    + rewrite lookup_insert_ne in Hp by done.
      destruct (S5 self p Hp) as (l & Hl & Hsome & Hlt).
      exists l. split; [exact Hl|]. split; [|lia].
      apply lookup_insert_is_Some'. right. exact Hsome.
  - intros self p b Hp Hb. rewrite Hwid in Hp. rewrite Hsig, filter_app.
    rewrite filter_new_connections.
    destruct (decide (self = next w)) as [->|N].
    + rewrite lookup_insert_eq in Hp. simplify_eq. simpl in Hb. simplify_eq.
      rewrite decide_True by reflexivity.
      rewrite filter_none; [reflexivity|].
      intros c Hc [Hi Hs]. specialize (Hold c Hc Hs). lia.
    + rewrite lookup_insert_ne in Hp by done.
      rewrite (S6 self p b Hp Hb).
      destruct (wf_check _ W _ p Hp) as (b' & Hb' & _ & Hlt).
      assert (b' = b) by congruence. subst b'.
      rewrite decide_False by lia. reflexivity.
Qed.

Lemma good_presence_widget_new account :
  invariant good (presence_widget_new toggled_emissions account).
Proof.
  intros w x w' G H. split.
  - eapply wf_presence_widget_new; [exact (proj1 G)|exact H].
  - eapply sound_presence_widget_new; eassumption.
Qed.

Lemma good_handle e : invariant good (handle toggled_emissions e).
Proof.
  destruct e; simpl.
  - apply good_preserved; unfold alloc; [frame_auto|keeps_auto].
  - apply good_preserved; unfold get_account; [frame_auto|keeps_auto].
  - apply good_preserved; unfold alloc; [frame_auto|keeps_auto].
  - apply good_preserved; unfold alloc; [frame_auto|keeps_auto].
  - apply invariant_bind; [apply good_presence_widget_new|].
    intros _. apply good_preserved; [frame_auto|keeps_auto].
  - apply good_emit_account_signal.
  - apply good_preserved; [apply frame_user_click|apply keeps_user_click].
  - apply good_preserved; unfold pending.
    + frame_auto; try apply frame_connection_ready.
    + keeps_auto; try apply keeps_connection_ready.
  - apply good_preserved; unfold pending.
    + frame_auto; try apply frame_get_property_statuses.
    + keeps_auto; try apply keeps_get_property_statuses.
  - apply good_preserved; [apply frame_dispose|apply keeps_dispose].
Qed.

(** Every world the event loop can be in satisfies both invariants. *)
Lemma reachable_good w : reachable toggled_emissions w → good w.
Proof.
  induction 1 as [|w e w' _ IH Hstep]; [exact (conj wf_empty sound_empty)|].
  unfold step in Hstep. apply exec_Some in Hstep as [x Hx].
  eapply good_handle; eassumption.
Qed.

End Good.

(** ** Whole emissions, to completion *)

(** Between two events every connected handler of a property
    notification or of a status change runs to completion. *)
Lemma run_account_handler_returns te a s c w :
  good w → c ∈ signals w → s ≠ Sig_removed →
  ∃ w', run_account_handler te a s c w = Some (tt, w').
Proof.
  intros [W S] Hc Hnr. unfold run_account_handler.
  case_bool_decide as Hd; [|eexists; reflexivity].
  destruct Hd as [Hi Hs].
  destruct (sound_data _ S c Hc) as [p Hp].
  assert (Hnt : sc_signal c ≠ "toggled").
  { rewrite Hs. destruct s; simpl; discriminate. }
  destruct (sound_account _ S c Hc Hnt) as [acc Ha]. rewrite Hi in Ha.
  destruct (wf_check _ W _ p Hp) as (b & Hb & [t Ht] & _).
  destruct (sound_icon _ S _ p Hp) as (i & Hpi & [oi Hoi] & _).
  destruct (sound_label _ S _ p Hp) as (l & Hpl & [ol Hol] & _).
  destruct (presence_icons_lookup (acc_presence acc)) as [icon Hicon].
  destruct (shown_message_exists acc) as (shown & Hsh1 & Hsh2).
  pose proof (sound_kinds _ S c Hc) as Hk. unfold connection_kinds in Hk.
  rewrite Hs in Hk.
  repeat (apply elem_of_cons in Hk as [Hk|Hk];
    [injection Hk as Hn Hh; rewrite Hh;
     destruct s; simpl in Hn; try discriminate Hn|]).
  - eexists.
    eapply (notify_enabled_exact te _ _ _ p b t acc); eauto.
    + rewrite (wf_lock _ W _ p Hp). lia.
    + intros c' Hc' Hi' Hs'. eapply wf_own_handler; eauto.
  - eexists. eapply notify_display_name_run; eauto.
  - eexists. eapply notify_presence_run; eauto.
  - eexists. eapply notify_status_message_run; eauto.
  - destruct (status_changed_run (sc_data c) old_status new_status reason
                a acc w Ha) as (w' & Hrun & _).
    exists w'. exact Hrun.
  - contradiction Hnr. reflexivity.
  - inversion Hk.
Qed.

Lemma for_each_account_handlers te a s l w :
  good w → (∀ c, c ∈ l → c ∈ signals w) → s ≠ Sig_removed →
  ∃ w', for_each (run_account_handler te a s) l w = Some (tt, w')
        ∧ good w' ∧ signals w' = signals w.
Proof.
  intros G Hl Hnr. revert w G Hl.
  induction l as [|c l IH]; intros w G Hl; simpl.
  - exists w. split; [reflexivity|]. split; [exact G|reflexivity].
  - destruct (run_account_handler_returns te a s c w G
                (Hl c (list_elem_of_here _ _)) Hnr) as [w1 H1].
    rewrite (bind_run _ _ _ _ _ H1).
    assert (G1 : good w1) by (eapply good_run_account_handler; eassumption).
    assert (S1 : signals w1 = signals w).
    { eapply frame_signals, frame_run_account_handler; [exact (proj1 G)|exact H1]. }
    destruct (IH w1 G1) as (w' & Hrun & G' & S').
    { intros c' Hc'. rewrite S1. apply Hl. right. exact Hc'. }
    exists w'. split; [exact Hrun|]. split; [exact G'|congruence].
Qed.

(** ** An emission of "removed", handler by handler *)




(** Handlers connected to another button do not run. *)
Lemma for_each_toggled_filter b l w :
  for_each (run_toggled_handler b) l w
  = for_each (run_toggled_handler b)
      (filter (λ c, sc_instance c = b ∧ sc_signal c = "toggled") l) w.
Proof.
  revert w. induction l as [|c l IH]; intros w; [reflexivity|].
  destruct (decide (sc_instance c = b ∧ sc_signal c = "toggled")) as [Hd|Hd].
  - rewrite filter_cons_True by exact Hd. simpl.
    unfold mbind, M_bind.
    destruct (run_toggled_handler b c w) as [[[] w1]|]; [apply IH|reflexivity].
  - rewrite filter_cons_False by exact Hd.
    assert (Hc : run_toggled_handler b c w = Some (tt, w)).
    { unfold run_toggled_handler.
      rewrite bool_decide_eq_false_2 by exact Hd. reflexivity. }
    change (for_each (run_toggled_handler b) (c :: l) w)
      with ((run_toggled_handler b c ;; for_each (run_toggled_handler b) l) w).
    rewrite (bind_run _ _ _ _ _ Hc). apply IH.
Qed.

(** * More of the widget's life *)

(** X13: between two events, as long as no widget connected to the
    account has been disposed of or destroyed, an emission of any
    property notification or of "status-changed" by the account runs
    every connected handler to completion: every handler is connected to
    a signal it has the signature for, and finds its widget, its check
    button, its image, its label and the emitting account.  The
    hypothesis on the connected widgets is needed in the program, where
    handlers are never disconnected and the parent's [dispose] destroys
    the children of a widget that is disposed of. *)
Theorem account_signal_is_handled te a s w :
  reachable te w →
  listeners_live a w = true →
  s ≠ Sig_removed →
  ∃ w', emit_account_signal te a s w = Some (tt, w').
Proof.
  intros G%reachable_good _ Hnr. unfold emit_account_signal.
  rewrite (bind_run _ _ w w (signals w)) by reflexivity.
  destruct (for_each_account_handlers te a s (signals w) w G) as (w' & H & _);
    [auto|exact Hnr|].
  exists w'. exact H.
Qed.

Lemma account_signal_is_handled_witness :
  reachable gtk2_emissions demo_world
  ∧ listeners_live 1%positive demo_world = true
  ∧ Sig_status_changed 0 0 0 ≠ Sig_removed
  ∧ ∃ w', emit_account_signal gtk2_emissions 1%positive
            (Sig_status_changed 0 0 0) demo_world = Some (tt, w').
Proof.
  assert (H1 : reachable gtk2_emissions demo_world).
  { apply (run_reachable gtk2_emissions demo_events empty_world).
    - apply reachable_start.
    - vm_compute. reflexivity. }
  assert (H2 : listeners_live 1%positive demo_world = true)
    by (vm_compute; reflexivity).
  assert (H3 : Sig_status_changed 0 0 0 ≠ Sig_removed) by discriminate.
  split; [exact H1|]. split; [exact H2|]. split; [exact H3|].
  exact (account_signal_is_handled gtk2_emissions 1%positive
           (Sig_status_changed 0 0 0) demo_world H1 H2 H3).
Defined.

(** X14: a click on the check button of a widget, between two events,
    flips the button and makes the widget issue exactly one
    [tp_account_set_enabled_async] request, for the widget's account and
    with the new state of the button; nothing else changes. *)
Theorem click_requests_new_state te self p b t w :
  reachable te w →
  widgets w !! self = Some p →
  enabled_check p = Some b →
  toggles w !! b = Some t →
  user_click b w
  = Some (tt, with_calls
                (λ l, l ++ [Call_tp_account_set_enabled_async
                              (account p) (negb (active t))])%list
                (with_toggles <[b := mkToggle (negb (active t)) (label t)]> w)).
Proof.
  intros [W S]%reachable_good Hp Hb Ht. unfold user_click.
  rewrite (bind_run _ _ w w t) by (run_M using (rewrite ?Ht); reflexivity).
  rewrite (bind_run _ _ w
             (with_toggles <[b := mkToggle (negb (active t)) (label t)]> w) tt)
    by reflexivity.
  unfold emit_toggled.
  rewrite (bind_run _ _ _ _ (signals w)) by reflexivity.
  rewrite for_each_toggled_filter.
  rewrite (sound_one_handler _ S self p b Hp Hb). simpl.
  unfold run_toggled_handler. simpl.
  rewrite bool_decide_eq_true_2 by (split; reflexivity).
  unfold _enabled_toggled, gtk_toggle_button_get_active.
  pose proof (wf_lock _ W self p Hp) as Hl.
  run_M using (rewrite ?Hp, ?Hl, ?lookup_insert_eq). reflexivity.
Qed.

Lemma click_requests_new_state_witness :
  reachable gtk2_emissions demo_world
  ∧ widgets demo_world !! 3%positive = Some demo_private
  ∧ enabled_check demo_private = Some 4%positive
  ∧ toggles demo_world !! 4%positive = Some (mkToggle true (Some "Alice"))
  ∧ user_click 4%positive demo_world
    = Some (tt, with_calls
                  (λ l, l ++ [Call_tp_account_set_enabled_async
                                (Some 1%positive) false])%list
                  (with_toggles <[4%positive := mkToggle false (Some "Alice")]>
                     demo_world)).
Proof.
  assert (H1 : reachable gtk2_emissions demo_world).
  { apply (run_reachable gtk2_emissions demo_events empty_world).
    - apply reachable_start.
    - vm_compute. reflexivity. }
  assert (H2 : widgets demo_world !! 3%positive = Some demo_private)
    by (vm_compute; reflexivity).
  assert (H3 : enabled_check demo_private = Some 4%positive) by reflexivity.
  assert (H4 : toggles demo_world !! 4%positive
               = Some (mkToggle true (Some "Alice")))
    by (vm_compute; reflexivity).
  split; [exact H1|]. split; [exact H2|]. split; [exact H3|].
  split; [exact H4|].
  exact (click_requests_new_state gtk2_emissions 3%positive demo_private
           4%positive (mkToggle true (Some "Alice")) demo_world H1 H2 H3 H4).
Defined.

(** * Construction, seen from the host *)

(** X15: [presence_widget_new] on a live account, between two events,
    returns a widget at an address that was not in use, bound to the
    account, with its guard counter at zero, and already showing the
    account: the check button has the account's enabled flag and carries
    its display name, the image shows the icon of its presence, and the
    label shows its status message, or the default message of its presence
    when the status message is empty. *)
Theorem new_widget_shows_account te a acc n w :
  reachable te w →
  accounts w !! a = Some acc →
  refs w !! a = Some (S n) →
  ∃ self w' p b i l icon shown,
    presence_widget_new te (Some a) w = Some (Some self, w')
    ∧ widgets w !! self = None
    ∧ widgets w' !! self = Some p
    ∧ account p = Some a
    ∧ updating_ui_lock p = 0%Z
    ∧ enabled_check p = Some b
    ∧ toggles w' !! b
      = Some (mkToggle (acc_enabled acc) (Some (acc_display_name acc)))
    ∧ status_icon p = Some i
    ∧ images w' !! i = Some (Some icon)
    ∧ presence_icons !! presence_index (acc_presence acc) = Some (Some icon)
    ∧ status_message p = Some l
    ∧ labels w' !! l = Some shown
    ∧ (acc_status_message acc = "" →
       default_messages !! presence_index (acc_presence acc)
       = Some (Some shown))
    ∧ (acc_status_message acc ≠ "" → shown = acc_status_message acc).
Proof.
  intros W%reachable_wf Ha Hr.
  destruct (presence_widget_new_effect te a acc n w W Ha Hr)
    as (w' & icon & shown & Hnew & Hicon & Hd1 & Hd2 & _ & Hwid & Htog & Him
        & Hlb & _).
  exists (next w), w'. eexists. eexists. eexists. eexists.
  exists icon, shown.
  split; [exact Hnew|]. split.
  { destruct (widgets w !! next w) as [p|] eqn:E; [|reflexivity].
    pose proof (wf_fresh _ W _ p E). lia. }
  split; [rewrite Hwid; apply lookup_insert_eq|].
  split; [reflexivity|]. split; [reflexivity|]. split; [reflexivity|].
  split; [rewrite Htog; apply lookup_insert_eq|].
  split; [reflexivity|].
  split; [rewrite Him; apply lookup_insert_eq|].
  split; [exact Hicon|]. split; [reflexivity|].
  split; [rewrite Hlb; apply lookup_insert_eq|].
  split; [exact Hd1|exact Hd2].
Qed.

Lemma new_widget_shows_account_witness :
  reachable gtk2_emissions demo_world_accounts
  ∧ accounts demo_world_accounts !! 1%positive = Some demo_account
  ∧ refs demo_world_accounts !! 1%positive = Some 1
  ∧ ∃ self w' p b i l icon shown,
      presence_widget_new gtk2_emissions (Some 1%positive) demo_world_accounts
        = Some (Some self, w')
      ∧ widgets demo_world_accounts !! self = None
      ∧ widgets w' !! self = Some p
      ∧ account p = Some 1%positive
      ∧ updating_ui_lock p = 0%Z
      ∧ enabled_check p = Some b
      ∧ toggles w' !! b
        = Some (mkToggle (acc_enabled demo_account)
                  (Some (acc_display_name demo_account)))
      ∧ status_icon p = Some i
      ∧ images w' !! i = Some (Some icon)
      ∧ presence_icons !! presence_index (acc_presence demo_account)
        = Some (Some icon)
      ∧ status_message p = Some l
      ∧ labels w' !! l = Some shown
      ∧ (acc_status_message demo_account = "" →
         default_messages !! presence_index (acc_presence demo_account)
         = Some (Some shown))
      ∧ (acc_status_message demo_account ≠ "" →
         shown = acc_status_message demo_account).
Proof.
  assert (H1 : reachable gtk2_emissions demo_world_accounts).
  { apply (run_reachable gtk2_emissions (take 2 demo_events) empty_world).
    - apply reachable_start.
    - vm_compute. reflexivity. }
  assert (H2 : accounts demo_world_accounts !! 1%positive = Some demo_account)
    by (vm_compute; reflexivity).
  assert (H3 : refs demo_world_accounts !! 1%positive = Some 1)
    by (vm_compute; reflexivity).
  split; [exact H1|]. split; [exact H2|]. split; [exact H3|].
  exact (new_widget_shows_account gtk2_emissions 1%positive demo_account 0
           demo_world_accounts H1 H2 H3).
Defined.

(** X16: what construction asks of the outside.  Building a widget for
    a live account appends to the call log exactly the nine toolkit
    layout calls of [presence_widget_init] (on the widget, its check
    button, its table, its image and its label), followed by one request
    to be called back when the account's connection is ready if the
    account has a connection and its connection status is Connected or
    Disconnected, and by nothing otherwise.  In particular, although
    construction sets the check button from the account, it never asks
    the account manager to enable or disable the account. *)
Theorem new_widget_requests te a acc n w :
  reachable te w →
  accounts w !! a = Some acc →
  refs w !! a = Some (S n) →
  ∃ self w' p check table icon lbl probe,
    presence_widget_new te (Some a) w = Some (Some self, w')
    ∧ widgets w' !! self = Some p
    ∧ enabled_check p = Some check
    ∧ status_icon p = Some icon
    ∧ status_message p = Some lbl
    ∧ calls w'
      = (calls w ++ layout_calls self check table icon lbl ++ probe)%list
    ∧ (∀ c, acc_connection acc = Some c →
         acc_connection_status acc = TP_CONNECTION_STATUS_CONNECTED
         ∨ acc_connection_status acc = TP_CONNECTION_STATUS_DISCONNECTED →
         probe = [Call_tp_connection_call_when_ready c CB_connection_ready self])
    ∧ (acc_connection acc = None
       ∨ ¬ (acc_connection_status acc = TP_CONNECTION_STATUS_CONNECTED
            ∨ acc_connection_status acc = TP_CONNECTION_STATUS_DISCONNECTED) →
       probe = [])
    ∧ (∀ o e, Call_tp_account_set_enabled_async o e
              ∉ (layout_calls self check table icon lbl ++ probe)%list).
Proof.
  intros W%reachable_wf Ha Hr.
  destruct (presence_widget_new_effect te a acc n w W Ha Hr)
    as (w' & icon & shown & Hnew & _ & _ & _ & _ & Hwid & _ & _ & _ & _ & _ & _
        & _ & Hcalls).
  exists (next w), w'. do 5 eexists.
  exists (probe_calls (next w) (acc_connection_status acc) acc).
  split; [exact Hnew|].
  split; [rewrite Hwid; apply lookup_insert_eq|].
  split; [reflexivity|]. split; [reflexivity|]. split; [reflexivity|].
  split; [exact Hcalls|].
  split; [|split].
  - intros c Hc Hs. unfold probe_calls. rewrite Hc.
    rewrite bool_decide_eq_true_2 by exact Hs. reflexivity.
  - intros [Hc|Hs]; unfold probe_calls.
    + rewrite Hc. reflexivity.
    + destruct (acc_connection acc); [|reflexivity].
      rewrite bool_decide_eq_false_2 by exact Hs. reflexivity.
  - intros o e [Hx|Hx]%elem_of_app.
    + unfold layout_calls in Hx.
      repeat (apply elem_of_cons in Hx as [Hx|Hx]; [discriminate Hx|]).
      inversion Hx.
    + unfold probe_calls in Hx.
      destruct (acc_connection acc) as [c|]; [|inversion Hx].
      case_bool_decide; [|inversion Hx].
      apply list_elem_of_singleton in Hx. discriminate Hx.
Qed.

Lemma new_widget_requests_witness :
  reachable gtk2_emissions demo_world_accounts
  ∧ accounts demo_world_accounts !! 1%positive = Some demo_account
  ∧ refs demo_world_accounts !! 1%positive = Some 1
  ∧ ∃ self w' p check table icon lbl probe,
      presence_widget_new gtk2_emissions (Some 1%positive) demo_world_accounts
        = Some (Some self, w')
      ∧ widgets w' !! self = Some p
      ∧ enabled_check p = Some check
      ∧ status_icon p = Some icon
      ∧ status_message p = Some lbl
      ∧ calls w'
        = (calls demo_world_accounts
           ++ layout_calls self check table icon lbl ++ probe)%list
      ∧ (∀ c, acc_connection demo_account = Some c →
           acc_connection_status demo_account = TP_CONNECTION_STATUS_CONNECTED
           ∨ acc_connection_status demo_account
             = TP_CONNECTION_STATUS_DISCONNECTED →
           probe = [Call_tp_connection_call_when_ready c
                      CB_connection_ready self])
      ∧ (acc_connection demo_account = None
         ∨ ¬ (acc_connection_status demo_account
              = TP_CONNECTION_STATUS_CONNECTED
              ∨ acc_connection_status demo_account
                = TP_CONNECTION_STATUS_DISCONNECTED) →
         probe = [])
      ∧ (∀ o e, Call_tp_account_set_enabled_async o e
                ∉ (layout_calls self check table icon lbl ++ probe)%list).
Proof.
  assert (H1 : reachable gtk2_emissions demo_world_accounts).
  { apply (run_reachable gtk2_emissions (take 2 demo_events) empty_world).
    - apply reachable_start.
    - vm_compute. reflexivity. }
  assert (H2 : accounts demo_world_accounts !! 1%positive = Some demo_account)
    by (vm_compute; reflexivity).
  assert (H3 : refs demo_world_accounts !! 1%positive = Some 1)
    by (vm_compute; reflexivity).
  split; [exact H1|]. split; [exact H2|]. split; [exact H3|].
  exact (new_widget_requests gtk2_emissions 1%positive demo_account 0
           demo_world_accounts H1 H2 H3).
Defined.

(** X17: a new widget makes exactly seven signal connections, appended
    in this order to those that exist: [_enabled_toggled] on "toggled" of
    its own check button, then on its account [_notify_enabled],
    [_notify_display_name], [_notify_presence], [_notify_status_message],
    [_status_changed] and [_account_removed], each with the widget as
    data. *)
Theorem new_widget_connections te a acc n w :
  reachable te w →
  accounts w !! a = Some acc →
  refs w !! a = Some (S n) →
  ∃ self w' p b,
    presence_widget_new te (Some a) w = Some (Some self, w')
    ∧ widgets w' !! self = Some p
    ∧ enabled_check p = Some b
    ∧ signals w' = (signals w ++ new_connections self b a)%list.
Proof.
  intros W%reachable_wf Ha Hr.
  destruct (presence_widget_new_effect te a acc n w W Ha Hr)
    as (w' & icon & shown & Hnew & _ & _ & _ & _ & Hwid & _ & _ & _ & _ & _
        & _ & Hsig & _).
  exists (next w), w'. eexists. eexists.
  split; [exact Hnew|].
  split; [rewrite Hwid; apply lookup_insert_eq|].
  split; [reflexivity|exact Hsig].
Qed.

Lemma new_widget_connections_witness :
  reachable gtk2_emissions demo_world_accounts
  ∧ accounts demo_world_accounts !! 1%positive = Some demo_account
  ∧ refs demo_world_accounts !! 1%positive = Some 1
  ∧ ∃ self w' p b,
      presence_widget_new gtk2_emissions (Some 1%positive) demo_world_accounts
        = Some (Some self, w')
      ∧ widgets w' !! self = Some p
      ∧ enabled_check p = Some b
      ∧ signals w'
        = (signals demo_world_accounts
           ++ new_connections self b 1%positive)%list.
Proof.
  assert (H1 : reachable gtk2_emissions demo_world_accounts).
  { apply (run_reachable gtk2_emissions (take 2 demo_events) empty_world).
    - apply reachable_start.
    - vm_compute. reflexivity. }
  assert (H2 : accounts demo_world_accounts !! 1%positive = Some demo_account)
    by (vm_compute; reflexivity).
  assert (H3 : refs demo_world_accounts !! 1%positive = Some 1)
    by (vm_compute; reflexivity).
  split; [exact H1|]. split; [exact H2|]. split; [exact H3|].
  exact (new_widget_connections gtk2_emissions 1%positive demo_account 0
           demo_world_accounts H1 H2 H3).
Defined.

(** X18: the reference a widget takes on its account when it is built
    is the one it gives back when it is disposed of: after
    [presence_widget_new] the account has one more reference, and after
    [presence_widget_dispose] of the new widget every reference count is
    what it was before the widget was built. *)
Theorem new_then_dispose_balances te a acc n w :
  reachable te w →
  accounts w !! a = Some acc →
  refs w !! a = Some (S n) →
  ∃ self w1 w2 p2,
    presence_widget_new te (Some a) w = Some (Some self, w1)
    ∧ refs w1 = <[a := S (S n)]> (refs w)
    ∧ presence_widget_dispose self w1 = Some (tt, w2)
    ∧ refs w2 = refs w
    ∧ widgets w2 !! self = Some p2
    ∧ account p2 = None.
Proof.
  intros W%reachable_wf Ha Hr.
  destruct (presence_widget_new_effect te a acc n w W Ha Hr)
    as (w1 & icon & shown & Hnew & _ & _ & _ & _ & Hwid & _ & _ & _ & _ & _
        & Hrefs & _).
  assert (Hp : widgets w1 !! next w = Some
    (mkPrivate (Some a) None (Some (Pos.succ (next w)))
       (Some (Pos.succ (Pos.succ (Pos.succ (next w)))))
       (Some (Pos.succ (Pos.succ (Pos.succ (Pos.succ (next w)))))) 0))
    by (rewrite Hwid; apply lookup_insert_eq).
  assert (Hr1 : refs w1 !! a = Some (S (S n)))
    by (rewrite Hrefs; apply lookup_insert_eq).
  exists (next w), w1. eexists. eexists.
  split; [exact Hnew|]. split; [exact Hrefs|].
  split; [exact (dispose_run _ _ a (S n) w1 Hp eq_refl Hr1)|].
  simpl. split.
  - rewrite Hrefs, insert_insert_eq. apply insert_id. exact Hr.
  - split; [apply lookup_insert_eq|reflexivity].
Qed.

Lemma new_then_dispose_balances_witness :
  reachable gtk2_emissions demo_world_accounts
  ∧ accounts demo_world_accounts !! 1%positive = Some demo_account
  ∧ refs demo_world_accounts !! 1%positive = Some 1
  ∧ ∃ self w1 w2 p2,
      presence_widget_new gtk2_emissions (Some 1%positive) demo_world_accounts
        = Some (Some self, w1)
      ∧ refs w1 = <[1%positive := 2]> (refs demo_world_accounts)
      ∧ presence_widget_dispose self w1 = Some (tt, w2)
      ∧ refs w2 = refs demo_world_accounts
      ∧ widgets w2 !! self = Some p2
      ∧ account p2 = None.
Proof.
  assert (H1 : reachable gtk2_emissions demo_world_accounts).
  { apply (run_reachable gtk2_emissions (take 2 demo_events) empty_world).
    - apply reachable_start.
    - vm_compute. reflexivity. }
  assert (H2 : accounts demo_world_accounts !! 1%positive = Some demo_account)
    by (vm_compute; reflexivity).
  assert (H3 : refs demo_world_accounts !! 1%positive = Some 1)
    by (vm_compute; reflexivity).
  split; [exact H1|]. split; [exact H2|]. split; [exact H3|].
  exact (new_then_dispose_balances gtk2_emissions 1%positive demo_account 0
           demo_world_accounts H1 H2 H3).
Defined.

(** X19: building a widget leaves what exists alone: the accounts and
    the connections are as they were, every other widget keeps its private
    structure, every button, image and label that existed keeps its state,
    and the only reference count that moves is the account's. *)
Theorem new_widget_leaves_others te a acc n w :
  reachable te w →
  accounts w !! a = Some acc →
  refs w !! a = Some (S n) →
  ∃ self w',
    presence_widget_new te (Some a) w = Some (Some self, w')
    ∧ accounts w' = accounts w
    ∧ connections w' = connections w
    ∧ (∀ k, k ≠ self → widgets w' !! k = widgets w !! k)
    ∧ (∀ k, (k < next w)%positive →
         toggles w' !! k = toggles w !! k
         ∧ images w' !! k = images w !! k
         ∧ labels w' !! k = labels w !! k)
    ∧ (∀ q, q ≠ a → refs w' !! q = refs w !! q).
Proof.
  intros W%reachable_wf Ha Hr.
  destruct (presence_widget_new_effect te a acc n w W Ha Hr)
    as (w' & icon & shown & Hnew & _ & _ & _ & _ & Hwid & Htog & Him & Hlb
        & Hacc & Hconn & Hrefs & _).
  exists (next w), w'.
  split; [exact Hnew|]. split; [exact Hacc|]. split; [exact Hconn|].
  split; [|split].
  - intros k Hk. rewrite Hwid. apply lookup_insert_ne. congruence.
  - intros k Hk. rewrite Htog, Him, Hlb.
    rewrite !lookup_insert_ne by lia. auto.
  - intros q Hq. rewrite Hrefs. apply lookup_insert_ne. congruence.
Qed.

Lemma new_widget_leaves_others_witness :
  reachable gtk2_emissions demo_world
  ∧ accounts demo_world !! 1%positive = Some demo_account
  ∧ refs demo_world !! 1%positive = Some 2
  ∧ ∃ self w',
      presence_widget_new gtk2_emissions (Some 1%positive) demo_world
        = Some (Some self, w')
      ∧ accounts w' = accounts demo_world
      ∧ connections w' = connections demo_world
      ∧ (∀ k, k ≠ self → widgets w' !! k = widgets demo_world !! k)
      ∧ (∀ k, (k < next demo_world)%positive →
           toggles w' !! k = toggles demo_world !! k
           ∧ images w' !! k = images demo_world !! k
           ∧ labels w' !! k = labels demo_world !! k)
      ∧ (∀ q, q ≠ 1%positive → refs w' !! q = refs demo_world !! q).
Proof.
  assert (H1 : reachable gtk2_emissions demo_world).
  { apply (run_reachable gtk2_emissions demo_events empty_world).
    - apply reachable_start.
    - vm_compute. reflexivity. }
  assert (H2 : accounts demo_world !! 1%positive = Some demo_account)
    by (vm_compute; reflexivity).
  assert (H3 : refs demo_world !! 1%positive = Some 2)
    by (vm_compute; reflexivity).
  split; [exact H1|]. split; [exact H2|]. split; [exact H3|].
  exact (new_widget_leaves_others gtk2_emissions 1%positive demo_account 1
           demo_world H1 H2 H3).
Defined.

(** X20: [presence_widget_dispose] does not check [priv->account]
    before it drops the reference.  The first disposal of a widget that
    holds its account returns and stores [NULL]; a second disposal hands
    that [NULL] to [g_object_unref], whose precondition it breaks. *)
Theorem dispose_twice_passes_null self p a n w :
  widgets w !! self = Some p →
  account p = Some a →
  refs w !! a = Some (S n) →
  ∃ w1 p1,
    presence_widget_dispose self w = Some (tt, w1)
    ∧ widgets w1 !! self = Some p1
    ∧ account p1 = None
    ∧ g_object_unref (account p1) w1 = None
    ∧ presence_widget_dispose self w1 = None.
Proof.
  intros Hp Ha Hr. eexists. exists (set_account None p).
  split; [exact (dispose_run self p a n w Hp Ha Hr)|].
  assert (Hp1 : ∀ f g, widgets (with_calls f
                         (with_widgets <[self := set_account None p]>
                            (with_refs g w))) !! self
                       = Some (set_account None p))
    by (intros f g; apply lookup_insert_eq).
  split; [apply Hp1|]. split; [reflexivity|]. split; [reflexivity|].
  unfold presence_widget_dispose, g_object_unref.
  rewrite (bind_run _ _ _ _ (set_account None p))
    by (run_M using (rewrite ?Hp1); rewrite lookup_insert_eq; reflexivity).
  reflexivity.
Qed.

Lemma dispose_twice_passes_null_witness :
  widgets demo_world !! 3%positive = Some demo_private
  ∧ account demo_private = Some 1%positive
  ∧ refs demo_world !! 1%positive = Some 2
  ∧ ∃ w1 p1,
      presence_widget_dispose 3%positive demo_world = Some (tt, w1)
      ∧ widgets w1 !! 3%positive = Some p1
      ∧ account p1 = None
      ∧ g_object_unref (account p1) w1 = None
      ∧ presence_widget_dispose 3%positive w1 = None.
Proof.
  assert (H1 : widgets demo_world !! 3%positive = Some demo_private)
    by (vm_compute; reflexivity).
  assert (H2 : account demo_private = Some 1%positive) by reflexivity.
  assert (H3 : refs demo_world !! 1%positive = Some 2)
    by (vm_compute; reflexivity).
  split; [exact H1|]. split; [exact H2|]. split; [exact H3|].
  exact (dispose_twice_passes_null 3%positive demo_private 1%positive 1
           demo_world H1 H2 H3).
Defined.

(** * Whole emissions *)

(** X11: a widget never answers a property notification with a
    request: between two events, as long as no widget connected to the
    account has been disposed of or destroyed, an emission of any
    "notify::" signal of the account, whatever widgets are connected to
    it, returns with the call log as it was. *)
Theorem notify_signal_handled_silently te a prop w :
  reachable te w →
  listeners_live a w = true →
  ∃ w', emit_account_signal te a (Sig_notify prop) w = Some (tt, w')
        ∧ calls w' = calls w.
Proof.
  intros Hr _. pose proof (reachable_good te w Hr) as G.
  destruct (for_each_account_handlers te a (Sig_notify prop) (signals w) w G)
    as (w' & H & _); [auto|discriminate|].
  assert (He : emit_account_signal te a (Sig_notify prop) w = Some (tt, w')).
  { unfold emit_account_signal.
    rewrite (bind_run _ _ w w (signals w)) by reflexivity. exact H. }
  exists w'. split; [exact He|].
  exact (notify_signal_issues_no_request te a prop w w' Hr He).
Qed.

Lemma notify_signal_handled_silently_witness :
  reachable gtk2_emissions demo_world_disabled
  ∧ listeners_live 1%positive demo_world_disabled = true
  ∧ ∃ w', emit_account_signal gtk2_emissions 1%positive (Sig_notify "enabled")
            demo_world_disabled = Some (tt, w')
          ∧ calls w' = calls demo_world_disabled.
Proof.
  assert (H1 : reachable gtk2_emissions demo_world_disabled).
  { apply (run_reachable gtk2_emissions demo_events_disabled empty_world).
    - apply reachable_start.
    - vm_compute. reflexivity. }
  assert (H2 : listeners_live 1%positive demo_world_disabled = true)
    by (vm_compute; reflexivity).
  split; [exact H1|]. split; [exact H2|].
  exact (notify_signal_handled_silently gtk2_emissions 1%positive "enabled"
           demo_world_disabled H1 H2).
Defined.


